(** * Thumbnail pipeline: a shallow embedding of the two Lambda handlers

    The repository holds two versions of one S3-triggered handler:
    - [src/docs/lambda-function.py], the full handler (per-record isolation,
      colour-mode normalisation, base-name key derivation), embedded in
      [Module LambdaFunction];
    - [src/lamcode.py], a reduced handler with a single [try] around the
      whole loop, embedded in [Module Lamcode].

    Library code the handlers call ([os.path], Pillow, boto3, [json]) is
    embedded in the modules [PosixPath], [PIL] and [Py] below: pure library
    functions are written out after their library source, remote services
    are oracles of a [world]. *)

From Stdlib Require Import String Ascii List ZArith Lia Bool.
From Stdlib Require Import QArith Qround Qabs Qfield Qreduction Lqa.
Import ListNotations.

Set Warnings "-register-all".

Local Open Scope string_scope.
Local Open Scope Z_scope.

(* ================================================================== *)
(** * Strings as Python sees them *)

Module Str.

(** [s[:n]] for [n >= 0]. *)
Fixpoint take (n : nat) (p : string) : string :=
  match n, p with
  | O, _ => EmptyString
  | S _, EmptyString => EmptyString
  | S m, String a t => String a (take m t)
  end.

(** [s[n:]] for [n >= 0]. *)
Fixpoint drop (n : nat) (p : string) : string :=
  match n, p with
  | O, _ => p
  | S _, EmptyString => EmptyString
  | S m, String _ t => drop m t
  end.

Definition slice_to (i : Z) (p : string) : string := take (Z.to_nat i) p.
Definition slice_from (i : Z) (p : string) : string := drop (Z.to_nat i) p.

(** [p[i:i+1]]: the one-character string at [i], empty past the end. *)
Definition slice1 (i : Z) (p : string) : string := take 1 (slice_from i p).

(** [len(p)]. *)
Definition len (p : string) : Z := Z.of_nat (String.length p).

(** [p.rfind(c)] for a one-character needle: the index of the last
    occurrence of [c], or [-1]. *)
Fixpoint rfind (c : ascii) (p : string) : Z :=
  match p with
  | EmptyString => -1
  | String a t =>
      let r := rfind c t in
      if 0 <=? r then r + 1 else if Ascii.eqb a c then 0 else -1
  end.

(** [c in p]. *)
Fixpoint has_char (c : ascii) (p : string) : bool :=
  match p with
  | EmptyString => false
  | String a t => Ascii.eqb a c || has_char c t
  end.

End Str.

(* ================================================================== *)
(** * [os.path] on a POSIX host (CPython's [posixpath] and [genericpath]) *)

Module PosixPath.
Import Str.

Definition sep : ascii := "/"%char.
Definition extsep : ascii := "."%char.

(** The [while filenameIndex < dotIndex] loop of [genericpath._splitext]:
    [n] is the number of iterations left, [dotIndex - filenameIndex].
    [Some] is the [return] inside the loop, [None] is falling out of it. *)
Fixpoint skip_leading_dots (n : nat) (p : string) (filenameIndex dotIndex : Z)
  : option (string * string) :=
  match n with
  | O => None
  | S m =>
      if String.eqb (slice1 filenameIndex p) (String extsep EmptyString)
      then skip_leading_dots m p (filenameIndex + 1) dotIndex
      else Some (slice_to dotIndex p, slice_from dotIndex p)
  end.

(** [os.path.splitext(p)]: [posixpath.splitext] calls
    [genericpath._splitext(p, '/', None, '.')]. *)
Definition splitext (p : string) : string * string :=
  let sepIndex := rfind sep p in
  let dotIndex := rfind extsep p in
  if sepIndex <? dotIndex then
    let filenameIndex := sepIndex + 1 in
    match skip_leading_dots (Z.to_nat (dotIndex - filenameIndex)) p
                            filenameIndex dotIndex with
    | Some r => r
    | None => (p, EmptyString)
    end
  else (p, EmptyString).

(** [os.path.basename(p)]: [i = p.rfind('/') + 1; return p[i:]]. *)
Definition basename (p : string) : string :=
  let i := rfind sep p + 1 in
  slice_from i p.

End PosixPath.

(* ================================================================== *)
(** * Destination keys *)

Module KeyDeriver.
Import Str PosixPath.

(** [src/docs/lambda-function.py], lines 87-88:
    [filename_without_ext = os.path.splitext(object_key)[0]]
    [thumbnail_key = f"thumbnails/{os.path.basename(filename_without_ext)}_thumb.jpg"] *)
Definition thumbnail_key (object_key : string) : string :=
  let filename_without_ext := fst (splitext object_key) in
  "thumbnails/" ++ basename filename_without_ext ++ "_thumb.jpg".

(** [src/lamcode.py], line 34:
    [thumbnail_key = f"thumbnails/{os.path.splitext(key)[0]}_thumb.jpg"] *)
Definition lamcode_thumbnail_key (key : string) : string :=
  "thumbnails/" ++ fst (splitext key) ++ "_thumb.jpg".

(** The spec's words for the name inside the destination key: the base
    name component of the key (what follows its last [/]) with that
    component's extension stripped. *)
Definition baseNameNoExt (sourceKey : string) : string :=
  fst (splitext (basename sourceKey)).

End KeyDeriver.

(* ================================================================== *)
(** * Python values, exceptions and the operations the handlers use *)

Module Py.

(** A [float] as [json.loads] can deliver it: a finite value, given by
    the rational it denotes, an infinity or a NaN. *)
Inductive float :=
| Finite (x : Q)
| Infinity (negative : bool)
| NaN.

(** An event as [json.loads] delivers it: a number without fraction or
    exponent is an [int], any other a [float].  A [dict] keeps its members
    in order, each key once; a [str] is its sequence of characters. *)
Inductive json :=
| JNull
| JBool (b : bool)
| JNum (n : Z)
| JFloat (x : float)
| JStr (s : string)
| JArr (items : list json)
| JObj (members : list (string * json)).

(** An exception caught by [except Exception]: [type(e).__name__] and
    [str(e)].  What [except Exception] does not catch ([SystemExit],
    [KeyboardInterrupt], the runtime killing the process) is outside the
    model. *)
Record exn := Exn { exn_type : string; exn_str : string }.

Inductive result (A : Type) :=
| Ok (a : A)
| Raise (e : exn).
Arguments Ok {A} a.
Arguments Raise {A} e.

Fixpoint lookup (k : string) (m : list (string * json)) : option json :=
  match m with
  | [] => None
  | (k', v) :: rest => if String.eqb k' k then Some v else lookup k rest
  end.

Definition type_name (v : json) : string :=
  match v with
  | JNull => "NoneType"
  | JBool _ => "bool"
  | JNum _ => "int"
  | JFloat _ => "float"
  | JStr _ => "str"
  | JArr _ => "list"
  | JObj _ => "dict"
  end.

(** [v[k]] with a string key [k]. *)
Definition getitem (v : json) (k : string) : result json :=
  match v with
  | JObj m =>
      match lookup k m with
      | Some x => Ok x
      | None => Raise (Exn "KeyError" ("'" ++ k ++ "'"))
      end
  | JArr _ =>
      Raise (Exn "TypeError" "list indices must be integers or slices, not str")
  | JStr _ =>
      Raise (Exn "TypeError" "string indices must be integers, not 'str'")
  | _ =>
      Raise (Exn "TypeError" ("'" ++ type_name v ++ "' object is not subscriptable"))
  end.

(** [v.get(k, default)]: only a dict has the method. *)
Definition get (v : json) (k : string) (default : json) : result json :=
  match v with
  | JObj m =>
      match lookup k m with
      | Some x => Ok x
      | None => Ok default
      end
  | _ =>
      Raise (Exn "AttributeError"
                 ("'" ++ type_name v ++ "' object has no attribute 'get'"))
  end.

Fixpoint chars (s : string) : list json :=
  match s with
  | EmptyString => []
  | String a t => JStr (String a EmptyString) :: chars t
  end.

(** The items [for record in v] binds, in order: the elements of a list,
    the keys of a dict, the characters of a string. *)
Definition iter (v : json) : result (list json) :=
  match v with
  | JArr l => Ok l
  | JObj m => Ok (map (fun kv => JStr (fst kv)) m)
  | JStr s => Ok (chars s)
  | _ => Raise (Exn "TypeError" ("'" ++ type_name v ++ "' object is not iterable"))
  end.

(** [len(v)]. *)
Definition len (v : json) : result Z :=
  match v with
  | JArr l => Ok (Z.of_nat (length l))
  | JObj m => Ok (Z.of_nat (length m))
  | JStr s => Ok (Z.of_nat (String.length s))
  | _ => Raise (Exn "TypeError" ("object of type '" ++ type_name v ++ "' has no len()"))
  end.

(** The text [json.dumps(v)] returns. *)
Inductive json_text := json_dumps (v : json).

End Py.

(* ================================================================== *)
(** * Python's floats

    A finite binary64 value is held as the rational it denotes; every
    operation is the exact one followed by rounding to 53 significant
    bits, to nearest, ties to even.  The exponent range is not modelled:
    the quotients and products of image sides stay far inside it. *)

Module Float64.

(** The integer nearest to [num / den] for [den > 0], ties to even. *)
Definition rne (num den : Z) : Z :=
  let q := num / den in
  let r := num mod den in
  match 2 * r ?= den with
  | Lt => q
  | Gt => q + 1
  | Eq => if Z.even q then q else q + 1
  end.

(** [n / d], for [n, d > 0], rounded to 53 significant bits: the
    exponent [e] puts [n / d / 2^e] in [[2^52, 2^53)], the significand is
    that quotient rounded to the nearest integer. *)
Definition round_pos (n d : Z) : Q :=
  let e0 := Z.log2 n - Z.log2 d - 52 in
  let e := if n * 2 ^ Z.max 0 (- e0) <? 2 ^ 52 * (d * 2 ^ Z.max 0 e0)
           then e0 - 1 else e0 in
  let m := rne (n * 2 ^ Z.max 0 (- e)) (d * 2 ^ Z.max 0 e) in
  (inject_Z (m * 2 ^ Z.max 0 e) / inject_Z (2 ^ Z.max 0 (- e)))%Q.

Definition round_canonical (q : Q) : Q :=
  match Qnum q with
  | 0 => 0%Q
  | Zpos n => round_pos (Zpos n) (Zpos (Qden q))
  | Zneg n => (- round_pos (Zpos n) (Zpos (Qden q)))%Q
  end.

(** Rounding a real number to binary64, to nearest, ties to even. *)
Definition round (q : Q) : Q := round_canonical (Qred q).

Definition of_int (z : Z) : Q := round (inject_Z z).
Definition div_int (x y : Z) : Q := round (inject_Z x / inject_Z y).
Definition mul (a b : Q) : Q := round (a * b).
Definition div (a b : Q) : Q := round (a / b).
Definition sub (a b : Q) : Q := round (a - b).

End Float64.

(* ================================================================== *)
(** * Pillow: images, pasting, thumbnails *)

Module PIL.
Import Py Float64.

(** One value per band, each in [0..255]. *)
Definition pixel := list Z.

Record image := Image {
  format : option string;   (** [image.format]; [None] unless read from a file *)
  mode : string;            (** [image.mode] *)
  width : Z;
  height : Z;
  data : list pixel;        (** row-major, [width * height] pixels *)
  palette : list pixel      (** mode [P]: the RGBA colour of each index *)
}.

Definition size (im : image) : Z * Z := (width im, height im).

(** [Image.new(mode, size, color)]. *)
Definition new (m : string) (sz : Z * Z) (color : pixel) : image :=
  Image None m (fst sz) (snd sz)
        (repeat color (Z.to_nat (fst sz * snd sz))) [].

(** [im.convert('RGBA')] of a palette image: every index is replaced by
    its palette colour, the alpha coming from the file's transparency
    table.  Images of other modes are not converted by the handler. *)
Definition convert_RGBA (im : image) : image :=
  Image None "RGBA" (width im) (height im)
        (map (fun px => nth (Z.to_nat (hd 0 px)) (palette im) [0; 0; 0; 255])
             (data im))
        [].

(** [im.split()[-1]]: the last band, as an [L] image. *)
Definition last_band (im : image) : image :=
  Image None "L" (width im) (height im)
        (map (fun px => [last px 0]) (data im)) [].

(** The four bytes Pillow's storage holds for one pixel: [LA] is stored
    as [L,L,L,A], [RGB] as [R,G,B,255], [RGBA] as it is. *)
Definition storage (m : string) (px : pixel) : pixel :=
  if String.eqb m "LA" then
    let l := hd 0 px in [l; l; l; last px 0]
  else if String.eqb m "RGB" then (firstn 3 px ++ [255])%list
  else px.

(** [DIV255] and [BLEND8] of Pillow's [ImagingUtils.h]. *)
Definition DIV255 (a : Z) : Z :=
  let tmp := a + 128 in Z.shiftr (Z.shiftr tmp 8 + tmp) 8.

Definition BLEND8 (mask in1 in2 : Z) : Z :=
  DIV255 (in1 * (255 - mask) + in2 * mask).

Fixpoint blend_bytes (a : Z) (out inp : list Z) : list Z :=
  match out, inp with
  | o :: out', i :: inp' => BLEND8 a o i :: blend_bytes a out' inp'
  | _, _ => []
  end.

Fixpoint paste_plain (out : list pixel) (m : string) (inp : list pixel)
  : list pixel :=
  match out, inp with
  | _ :: out', i :: inp' => firstn 3 (storage m i) :: paste_plain out' m inp'
  | _, _ => out
  end.

Fixpoint paste_mask_L (out : list pixel) (m : string) (inp mask : list pixel)
  : list pixel :=
  match out, inp, mask with
  | o :: out', i :: inp', a :: mask' =>
      firstn 3 (blend_bytes (hd 0 a) (storage "RGB" o) (storage m i))
        :: paste_mask_L out' m inp' mask'
  | _, _, _ => out
  end.

(** [self.paste(im, mask=mask)] for an [RGB] destination and a source of
    the same size in mode [RGBA] or [LA]: [Image.paste] hands such a source
    to the C routine unconverted, which copies its storage bytes
    ([mask] is [None]) or blends them per byte with the [L] mask
    ([paste_mask_L] of Paste.c). *)
Definition paste (self im : image) (mask : option image) : image :=
  match mask with
  | None =>
      Image (format self) (mode self) (width self) (height self)
            (paste_plain (data self) (mode im) (data im)) (palette self)
  | Some msk =>
      Image (format self) (mode self) (width self) (height self)
            (paste_mask_L (data self) (mode im) (data im) (data msk))
            (palette self)
  end.

(** Python's [min(a, b, key=key)]: the first of the two with the least
    key; the keys are floats. *)
Definition min_by_key (key : Z -> Q) (a b : Z) : Z :=
  if Qle_bool (key a) (key b) then a else b.

(** [round_aspect] of [Image.thumbnail]:
    [max(min(math.floor(number), math.ceil(number), key=key), 1)]. *)
Definition round_aspect (number : Q) (key : Z -> Q) : Z :=
  Z.max (min_by_key key (Qfloor number) (Qceiling number)) 1.

(** [preserve_aspect_ratio] of [Image.thumbnail], for a requested size
    [(x, y)] of integers, in Python's float arithmetic:
    [aspect = self.width / self.height], then, if [x / y >= aspect],
    [x = round_aspect(y * aspect, key=lambda n: abs(aspect - n / y))],
    else [y = round_aspect(x / aspect,
                           key=lambda n: 0 if n == 0 else abs(aspect - x / n))].
    [Ok None] is the early [return] for an image already inside the box. *)
Definition preserve_aspect_ratio (x y : Z) (im : image)
  : result (option (Z * Z)) :=
  if (width im <=? x) && (height im <=? y) then Ok None
  else if height im =? 0 then Raise (Exn "ZeroDivisionError" "division by zero")
  else if y =? 0 then Raise (Exn "ZeroDivisionError" "division by zero")
  else
    let aspect := div_int (width im) (height im) in
    if Qle_bool aspect (div_int x y) then
      let x' := round_aspect (mul (of_int y) aspect)
                  (fun n => Qabs (sub aspect (div_int n y))) in
      Ok (Some (x', y))
    else if Qeq_bool aspect 0 then
      Raise (Exn "ZeroDivisionError" "float division by zero")
    else
      let y' := round_aspect (div (of_int x) aspect)
                  (fun n => if n =? 0 then 0%Q
                            else Qabs (sub aspect (div_int x n))) in
      Ok (Some (x, y')).

(** [im.thumbnail(size, resample)]: the image is replaced by one of the
    final size, its pixels computed by the resampling filter
    ([resample_filter], not modelled: Lanczos convolution). *)
Definition thumbnail (resample_filter : image -> Z * Z -> list pixel)
           (sz : Z * Z) (im : image) : result image :=
  match preserve_aspect_ratio (fst sz) (snd sz) im with
  | Raise e => Raise e
  | Ok None => Ok im
  | Ok (Some final_size) =>
      if (fst final_size =? width im) && (snd final_size =? height im)
      then Ok im
      else Ok (Image (format im) (mode im) (fst final_size) (snd final_size)
                     (resample_filter im final_size) (palette im))
  end.

(** The modes [JpegImagePlugin] can write (its [RAWMODE] table). *)
Definition jpeg_rawmode (m : string) : bool :=
  existsb (String.eqb m) ["1"; "L"; "RGB"; "RGBX"; "CMYK"; "YCbCr"].

End PIL.

(* ================================================================== *)
(** * The collaborators: S3, SNS, the codec, the clock, the log *)

Module Aws.
Import Py PIL.

Definition bytes := list Byte.byte.

Inductive level := INFO | ERROR.

(** What [thumbnail_size_text] returns: the unit chosen and the byte
    count it formats (the two-decimal float formatting is not modelled). *)
Inductive size_text :=
| SizeB (size_bytes : Z)
| SizeKB (size_bytes : Z)
| SizeMB (size_bytes : Z).

(** The [Subject] of a notification.  The full handler's subjects are an
    f-string with one interpolated value each; the constructor stands for
    the fixed text. *)
Inductive subject :=
| SubjectText (s : string)
| ThumbnailGenerated (name : string)
| ErrorProcessingImage (key : json)
| CriticalLambdaFunctionError.

(** The [Message] of a notification: the values interpolated into the
    template, in the order the f-string evaluates them. *)
Inductive message :=
| MessageText (s : string)
| SuccessMessage (object_key bucket_name : string) (file_size : Z)
                 (image_format : option string) (thumbnail_key : string)
                 (thumbnail_bucket : option string) (thumbnail_size : size_text)
                 (dimensions : Z * Z) (quality : Z) (timestamp : string)
| ErrorMessage (error_type error_message timestamp : string)
               (bucket key : json)
| CriticalMessage (error error_type timestamp : string)
                  (thumbnail_bucket sns_topic_arn : option string)
                  (thumbnail_size : Z * Z).

(** One call to a collaborator.  A call is recorded when it is made,
    whether it then returns or raises.  A [Log] carries the fixed text of
    the logged line, followed by [str(e)] where the line reports an
    exception; other interpolated values are left out. *)
Inductive event :=
| Log (lvl : level) (text : string)
| GetObject (Bucket Key : string)
| PutObject (Bucket : option string) (Key : string) (Body : bytes)
            (ContentType : string) (Metadata : list (string * string))
| Publish (TopicArn : option string) (Subject : subject) (Message : message).

Definition trace := list event.

(** The environment of one invocation.  Every remote call may answer
    differently each time: its oracle sees the calls made so far. *)
Record world := World {
  THUMBNAIL_BUCKET : option string;   (** [os.environ.get]: [None] if unset *)
  SNS_TOPIC_ARN : option string;
  (** what botocore raises, before any request is sent, for the named
      parameter when its value is not a [str]: the exception and its text
      depend on the parameter and on the library's version *)
  botocore_rejects : string -> json -> exn;
  s3_get_object : trace -> string -> string -> result bytes;
  s3_put_object : trace -> option string -> string -> bytes -> result unit;
  sns_publish : trace -> option string -> subject -> message -> result unit;
  Image_open : bytes -> result image;
  jpeg_encoder : image -> Z -> bool -> result bytes;
  resample_filter : image -> Z * Z -> list pixel;
  datetime_now : trace -> string
}.

(** Computations that call collaborators and may raise. *)
Definition M (A : Type) : Type := trace -> trace * result A.

Definition ret {A} (a : A) : M A := fun tr => (tr, Ok a).

Definition raise {A} (e : exn) : M A := fun tr => (tr, Raise e).

Definition bind {A B} (m : M A) (k : A -> M B) : M B :=
  fun tr =>
    match m tr with
    | (tr', Ok a) => k a tr'
    | (tr', Raise e) => (tr', Raise e)
    end.

Definition lift {A} (r : result A) : M A := fun tr => (tr, r).

(** [try: body except Exception as e: handler(e)]. *)
Definition try_except {A} (body : M A) (handler : exn -> M A) : M A :=
  fun tr =>
    match body tr with
    | (tr', Ok a) => (tr', Ok a)
    | (tr', Raise e) => handler e tr'
    end.

Definition call {A} (ev : event) (answer : trace -> result A) : M A :=
  fun tr => ((tr ++ [ev])%list, answer tr).

Definition log (lvl : level) (text : string) : M unit :=
  call (Log lvl text) (fun _ => Ok tt).

Declare Scope eff_scope.
Delimit Scope eff_scope with eff.
Notation "x <- m ;; k" := (bind m (fun x => k))
  (at level 100, m at next level, right associativity) : eff_scope.
Notation "m ;; k" := (bind m (fun _ => k))
  (at level 100, right associativity) : eff_scope.

(** [os.fspath] as [os.path] applies it to its argument. *)
Definition fspath (v : json) : result string :=
  match v with
  | JStr s => Ok s
  | _ => Raise (Exn "TypeError"
                    ("expected str, bytes or os.PathLike object, not "
                       ++ type_name v))
  end.

Section Clients.
Variable w : world.
Local Open Scope eff_scope.

(** botocore's check of a parameter that must be a string. *)
Definition param_str (name : string) (v : json) : result string :=
  match v with
  | JStr s => Ok s
  | _ => Raise (botocore_rejects w name v)
  end.

(** [s3_client.get_object(Bucket=..., Key=...)['Body'].read()]. *)
Definition get_object (Bucket Key : json) : M bytes :=
  b <- lift (param_str "Bucket" Bucket) ;;
  k <- lift (param_str "Key" Key) ;;
  call (GetObject b k) (fun tr => s3_get_object w tr b k).

(** [s3_client.put_object(Bucket=THUMBNAIL_BUCKET, Key=..., Body=...,
    ContentType=..., Metadata=...)]. *)
Definition put_object (Key : string) (Body : bytes) (ContentType : string)
           (Metadata : list (string * string)) : M unit :=
  call (PutObject (THUMBNAIL_BUCKET w) Key Body ContentType Metadata)
       (fun tr => s3_put_object w tr (THUMBNAIL_BUCKET w) Key Body).

(** [sns_client.publish(TopicArn=SNS_TOPIC_ARN, Subject=..., Message=...)]. *)
Definition publish (Subject : subject) (Message : message) : M unit :=
  call (Publish (SNS_TOPIC_ARN w) Subject Message)
       (fun tr => sns_publish w tr (SNS_TOPIC_ARN w) Subject Message).

(** [datetime.now()]. *)
Definition now : M string := fun tr => (tr, Ok (datetime_now w tr)).

(** [image.save(buffer, format='JPEG', quality=..., optimize=...)]
    followed by [buffer.getvalue()]: the plugin refuses the modes JPEG
    cannot hold before it encodes. *)
Definition save_jpeg (im : image) (quality : Z) (optimize : bool)
  : result bytes :=
  if jpeg_rawmode (mode im) then jpeg_encoder w im quality optimize
  else Raise (Exn "OSError" ("cannot write mode " ++ mode im ++ " as JPEG")).

End Clients.

Record response := Response { statusCode : Z; body : json_text }.

(** Counting the calls of a trace. *)
Definition is_get (e : event) : bool :=
  match e with GetObject _ _ => true | _ => false end.
Definition is_put (e : event) : bool :=
  match e with PutObject _ _ _ _ _ => true | _ => false end.
Definition is_publish (e : event) : bool :=
  match e with Publish _ _ _ => true | _ => false end.
Definition is_remote (e : event) : bool :=
  is_get e || is_put e || is_publish e.

Definition fetches (tr : trace) : list event := filter is_get tr.
Definition uploads (tr : trace) : list event := filter is_put tr.
Definition notifications (tr : trace) : list event := filter is_publish tr.

(** The subjects of the notifications attempted, in order. *)
Fixpoint subjects (tr : trace) : list subject :=
  match tr with
  | [] => []
  | Publish _ s _ :: rest => s :: subjects rest
  | _ :: rest => subjects rest
  end.

End Aws.

(* ================================================================== *)
(** * [src/docs/lambda-function.py] *)

Module LambdaFunction.
Import Py PIL Aws.
Local Open Scope eff_scope.

Definition THUMBNAIL_SIZE : Z * Z := (200, 200).
Definition THUMBNAIL_QUALITY : Z := 80.

(** [thumbnail_size_text(buffer)], lines 241-249. *)
Definition thumbnail_size_text (buffer : bytes) : size_text :=
  let size_bytes := Z.of_nat (length buffer) in
  if size_bytes <? 1024 then SizeB size_bytes
  else if size_bytes <? 1024 * 1024 then SizeKB size_bytes
  else SizeMB size_bytes.

(** Lines 66-73: [RGBA], [LA] and [P] images are replaced by a white
    [RGB] background with the image pasted on it; the alpha band is the
    paste mask only when the mode is [RGBA] (after the [P] conversion). *)
Definition normalize (img : image) : image :=
  if existsb (String.eqb (mode img)) ["RGBA"; "LA"; "P"] then
    let background := PIL.new "RGB" (size img) [255; 255; 255] in
    let img := if String.eqb (mode img) "P"
               then convert_RGBA img else img in
    let mask := if String.eqb (mode img) "RGBA"
                then Some (last_band img) else None in
    paste background img mask
  else img.

(** [record.get('s3', {}).get(a, {}).get(b, 'Unknown')], as the failure
    notification spells it. *)
Definition context_of (record : json) (a b : string) : result json :=
  match get record "s3" (JObj []) with
  | Raise e => Raise e
  | Ok s3 =>
      match get s3 a (JObj []) with
      | Raise e => Raise e
      | Ok x => get x b (JStr "Unknown")
      end
  end.

Section Handler.
Variable w : world.

(** The body of the inner [try], lines 48-140. *)
Definition process_record (record : json) : M unit :=
  s3 <- lift (getitem record "s3") ;;
  bucket <- lift (getitem s3 "bucket") ;;
  bucket_name <- lift (getitem bucket "name") ;;
  s3' <- lift (getitem record "s3") ;;
  object <- lift (getitem s3' "object") ;;
  object_key <- lift (getitem object "key") ;;
  log INFO "Processing image" ;;
  image_data <- get_object w bucket_name object_key ;;
  log INFO "Downloaded image size" ;;
  image <- lift (Image_open w image_data) ;;
  log INFO "Original image format" ;;
  image <- lift (thumbnail (resample_filter w) THUMBNAIL_SIZE (normalize image)) ;;
  log INFO "Thumbnail generated" ;;
  thumbnail_buffer <- lift (save_jpeg w image THUMBNAIL_QUALITY true) ;;
  key_path <- lift (fspath object_key) ;;
  let thumbnail_key := KeyDeriver.thumbnail_key key_path in
  log INFO "Uploading thumbnail to" ;;
  source_bucket <- lift (param_str w "Metadata" bucket_name) ;;
  t <- now w ;;
  put_object w thumbnail_key thumbnail_buffer "image/jpeg"
             [("original-image", key_path); ("source-bucket", source_bucket);
              ("generated-by", "Lambda-ThumbnailGenerator");
              ("generation-time", t)] ;;
  log INFO "Thumbnail uploaded successfully" ;;
  t' <- now w ;;
  publish w (ThumbnailGenerated (PosixPath.basename key_path))
          (SuccessMessage key_path source_bucket
                          (Z.of_nat (length image_data)) (format image)
                          thumbnail_key (THUMBNAIL_BUCKET w)
                          (thumbnail_size_text thumbnail_buffer)
                          THUMBNAIL_SIZE THUMBNAIL_QUALITY t') ;;
  log INFO "Success notification sent via SNS".

(** The [except Exception as record_error] clause, lines 142-179. *)
Definition record_failed (record : json) (record_error : exn) : M unit :=
  log ERROR ("Error processing record: " ++ exn_str record_error) ;;
  t <- now w ;;
  bucket <- lift (context_of record "bucket" "name") ;;
  key <- lift (context_of record "object" "key") ;;
  subject_key <- lift (context_of record "object" "key") ;;
  publish w (ErrorProcessingImage subject_key)
          (ErrorMessage (exn_type record_error) (exn_str record_error) t
                        bucket key).

(** One turn of the loop: the inner [try] with its [except] clause. *)
Definition handle_record (record : json) : M unit :=
  try_except (process_record record) (record_failed record).

(** [for record in ...], line 46. *)
Fixpoint for_records (records : list json) : M unit :=
  match records with
  | [] => ret tt
  | record :: rest => handle_record record ;; for_records rest
  end.

(** The body of the outer [try], lines 42-192. *)
Definition invocation (event : json) : M response :=
  log INFO "Lambda function triggered" ;;
  log INFO "Event" ;;
  records <- lift (get event "Records" (JArr [])) ;;
  items <- lift (iter records) ;;
  for_records items ;;
  records' <- lift (get event "Records" (JArr [])) ;;
  n <- lift (len records') ;;
  t <- now w ;;
  let response :=
    Response 200
      (json_dumps
         (JObj [("message", JStr "Thumbnail generation completed successfully");
                ("records_processed", JNum n);
                ("timestamp", JStr t)])) in
  log INFO "Lambda execution completed successfully" ;;
  ret response.

(** The [except Exception as main_error] clause, lines 194-238. *)
Definition invocation_failed (main_error : exn) : M response :=
  log ERROR ("Critical error in Lambda handler: " ++ exn_str main_error) ;;
  t <- now w ;;
  try_except
    (publish w CriticalLambdaFunctionError
             (CriticalMessage (exn_str main_error) (exn_type main_error) t
                              (THUMBNAIL_BUCKET w) (SNS_TOPIC_ARN w)
                              THUMBNAIL_SIZE))
    (fun sns_error =>
       log ERROR ("Failed to send error notification: " ++ exn_str sns_error)) ;;
  t' <- now w ;;
  ret (Response 500
         (json_dumps
            (JObj [("error", JStr "Lambda execution failed");
                   ("message", JStr (exn_str main_error));
                   ("timestamp", JStr t')]))).

(** [lambda_handler(event, context)]. *)
Definition lambda_handler (event : json) : M response :=
  try_except (invocation event) invocation_failed.

End Handler.

End LambdaFunction.

(* ================================================================== *)
(** * [src/lamcode.py] *)

Module Lamcode.
Import Py PIL Aws.
Local Open Scope eff_scope.

Definition THUMBNAIL_SIZE : Z * Z := (200, 200).

Definition newline : string := String (ascii_of_nat 10) EmptyString.

(** [str(THUMBNAIL_BUCKET)] inside an f-string. *)
Definition str_of_env (v : option string) : string :=
  match v with
  | Some s => s
  | None => "None"
  end.

Section Handler.
Variable w : world.

(** The loop body, lines 20-51. *)
Definition process_record (record : json) : M unit :=
  s3 <- lift (getitem record "s3") ;;
  bucket_member <- lift (getitem s3 "bucket") ;;
  bucket <- lift (getitem bucket_member "name") ;;
  s3' <- lift (getitem record "s3") ;;
  object <- lift (getitem s3' "object") ;;
  key <- lift (getitem object "key") ;;
  log INFO "Processing image" ;;
  image_data <- get_object w bucket key ;;
  image <- lift (Image_open w image_data) ;;
  image <- lift (thumbnail (resample_filter w) THUMBNAIL_SIZE image) ;;
  thumbnail_buffer <- lift (save_jpeg w image 80 false) ;;
  key_path <- lift (fspath key) ;;
  let thumbnail_key := KeyDeriver.lamcode_thumbnail_key key_path in
  put_object w thumbnail_key thumbnail_buffer "image/jpeg" [] ;;
  (* [bucket] is a [str] here: [get_object] accepted it *)
  bucket_text <- lift (param_str w "Bucket" bucket) ;;
  let message :=
    "Image Processing Complete!" ++ newline
    ++ "Original Image: " ++ key_path ++ newline
    ++ "Original Bucket: " ++ bucket_text ++ newline
    ++ "Thumbnail Created: " ++ thumbnail_key ++ newline
    ++ "Thumbnail Bucket: " ++ str_of_env (THUMBNAIL_BUCKET w) in
  publish w (SubjectText "Image Thumbnail Generated Successfully")
          (MessageText message) ;;
  log INFO ("Thumbnail created: " ++ thumbnail_key).

Fixpoint for_records (records : list json) : M unit :=
  match records with
  | [] => ret tt
  | record :: rest => process_record record ;; for_records rest
  end.

(** The body of the [try], lines 19-53. *)
Definition invocation (event : json) : M response :=
  records <- lift (getitem event "Records") ;;
  items <- lift (iter records) ;;
  for_records items ;;
  ret (Response 200 (json_dumps (JStr "Thumbnails generated successfully!"))).

(** The [except Exception as e] clause, lines 54-61: its [publish] is not
    guarded. *)
Definition invocation_failed (e : exn) : M response :=
  log ERROR ("Error processing image: " ++ exn_str e) ;;
  publish w (SubjectText "Image Processing Error")
          (MessageText ("Error: " ++ exn_str e)) ;;
  ret (Response 500 (json_dumps (JStr ("Error: " ++ exn_str e)))).

Definition lambda_handler (event : json) : M response :=
  try_except (invocation event) invocation_failed.

End Handler.

End Lamcode.

(* ================================================================== *)
(** * Concrete events and environments *)

Module Scenario.
Import Py PIL Aws Byte.

(** One change record as S3 delivers it. *)
Definition record_of (bucket key : string) : json :=
  JObj [("s3", JObj [("bucket", JObj [("name", JStr bucket)]);
                     ("object", JObj [("key", JStr key)])])].

Definition event_of (records : list json) : json :=
  JObj [("Records", JArr records)].

Definition stored_bytes : bytes := [x89; x50; x4e; x47].
Definition jpeg_bytes : bytes := [xff; xd8; xff; xd9].

(** A 201x1 opaque image: one pixel too wide for the box. *)
Definition wide_image : image :=
  Image (Some "PNG") "RGB" 201 1 (repeat [10; 20; 30] 201) [].

Definition NoSuchKey : exn :=
  Exn "NoSuchKey" "The specified key does not exist.".
Definition SnsDown : exn :=
  Exn "EndpointConnectionError" "Could not connect to the endpoint URL".

(** botocore's parameter validation error. *)
Definition rejected (name : string) (v : json) : exn :=
  Exn "ParamValidationError" ("Invalid type for parameter " ++ name).

(** A bucket holding every key but [missing.png]. *)
Definition bucket_get (tr : trace) (bucket key : string) : result bytes :=
  if String.eqb key "missing.png" then Raise NoSuchKey else Ok stored_bytes.

Definition world_with
           (publish : trace -> option string -> subject -> message -> result unit)
  : world :=
  World (Some "thumbs") (Some "arn:aws:sns:us-east-1:1:topic")
        rejected
        bucket_get
        (fun _ _ _ _ => Ok tt)
        publish
        (fun _ => Ok wide_image)
        (fun _ _ _ => Ok jpeg_bytes)
        (fun _ sz => repeat [10; 20; 30] (Z.to_nat (fst sz * snd sz)))
        (fun tr => "2024-01-01T00:00:00").

(** A 2x1 greyscale image with alpha: a fully transparent black pixel
    and an opaque grey one. *)
Definition grey_alpha_image : image :=
  Image (Some "PNG") "LA" 2 1 [[0; 0]; [200; 255]] [].

(** A 2x1 colour image with alpha: a fully transparent black pixel and
    an opaque coloured one. *)
Definition colour_alpha_image : image :=
  Image (Some "PNG") "RGBA" 2 1 [[0; 0; 0; 0]; [10; 20; 30; 255]] [].

(** The same picture, palette-indexed with a transparent entry. *)
Definition palette_image : image :=
  Image (Some "PNG") "P" 2 1 [[0]; [1]] [[0; 0; 0; 0]; [10; 20; 30; 255]].

(** Every collaborator answers; every stored object decodes to
    [decoded]. *)
Definition world_decoding (decoded : image) : world :=
  World (Some "thumbs") (Some "arn:aws:sns:us-east-1:1:topic")
        rejected
        bucket_get
        (fun _ _ _ _ => Ok tt)
        (fun _ _ _ _ => Ok tt)
        (fun _ => Ok decoded)
        (fun _ _ _ => Ok jpeg_bytes)
        (fun _ sz => repeat [10; 20; 30] (Z.to_nat (fst sz * snd sz)))
        (fun tr => "2024-01-01T00:00:00").

(** SNS delivers every notification. *)
Definition sns_up : world := world_with (fun _ _ _ _ => Ok tt).

(** SNS refuses every notification. *)
Definition sns_down : world := world_with (fun _ _ _ _ => Raise SnsDown).

(** SNS refuses the success notifications only. *)
Definition sns_refuses_success : world :=
  world_with (fun _ _ s _ =>
                match s with
                | ThumbnailGenerated _ => Raise SnsDown
                | _ => Ok tt
                end).

End Scenario.

(* ================================================================== *)
(** * Properties the theorems are stated with *)

Module Properties.
Import Py PIL Aws.

(** SNS accepts every per-record failure notification. *)
Definition failure_notices_delivered (w : world) : Prop :=
  forall tr arn key m,
    sns_publish w tr arn (ErrorProcessingImage key) m = Ok tt.

(** The record is shaped so that the failure notification can read its
    bucket and key (or their [Unknown] defaults) from it. *)
Definition context_readable (record : json) : Prop :=
  exists b k,
    LambdaFunction.context_of record "bucket" "name" = Ok b
    /\ LambdaFunction.context_of record "object" "key" = Ok k.

(** A computation only adds calls to the trace. *)
Definition extends {A} (m : M A) : Prop :=
  forall tr tr' r, m tr = (tr', r) -> exists ext, tr' = (tr ++ ext)%list.

Definition white : pixel := [255; 255; 255].

(** The string consists of dots only (the empty string included). *)
Fixpoint all_dots (s : string) : bool :=
  match s with
  | EmptyString => true
  | String a t => Ascii.eqb a PosixPath.extsep && all_dots t
  end.

(** SNS accepts every notification. *)
Definition notices_delivered (w : world) : Prop :=
  forall tr arn s m, sns_publish w tr arn s m = Ok tt.

(** SNS accepts the reduced handler's error notification. *)
Definition error_notice_delivered (w : world) : Prop :=
  forall tr arn m,
    sns_publish w tr arn (SubjectText "Image Processing Error") m = Ok tt.

(** The S3 records of a list of (bucket, key) pairs. *)
Definition records_of (keys : list (string * string)) : list json :=
  map (fun bk => Scenario.record_of (fst bk) (snd bk)) keys.

(** The relative error of one rounding to binary64: [2^-53]. *)
Definition eps : Q := 1 # 9007199254740992.

(** The least distance between a quotient by an image side (below
    [2^31]) and an integer it is not equal to, and a bound, well under it,
    of the error the size computation accumulates. *)
Definition gap : Q := 1 # 2147483648.
Definition tiny : Q := 1 # 1099511627776.

(** The integers from 1 to 198: the lengths a side can be rounded down
    to when the exact length is an integer below 200. *)
Definition upto198 : list Z := map Z.of_nat (seq 1 198).

(** [im'] lies in the 200x200 box and is no larger than [src]; it has
    the size of [src], or one side of 200 and the other within one pixel
    of the length that keeps the proportions of [src]. *)
Definition fits_box (src im' : image) : Prop :=
  1 <= width im' <= 200 /\ 1 <= height im' <= 200
  /\ width im' <= width src /\ height im' <= height src
  /\ (size im' = size src
      \/ (height im' = 200
          /\ Z.abs (width im' * height src - 200 * width src) < height src)
      \/ (width im' = 200
          /\ Z.abs (height im' * width src - 200 * height src) < width src)).

(** A value is a byte: between 0 and 255. *)
Definition is_byte (v : Z) : Prop := 0 <= v <= 255.

(** The body of the full handler's 200 response. *)
Definition ok_body (records_processed : Z) (timestamp : string) : json_text :=
  json_dumps
    (JObj [("message", JStr "Thumbnail generation completed successfully");
           ("records_processed", JNum records_processed);
           ("timestamp", JStr timestamp)]).

(** The [records_processed] member of a response body, if the body is an
    object that has one. *)
Definition records_processed (b : json_text) : option json :=
  match b with
  | json_dumps (JObj members) => lookup "records_processed" members
  | json_dumps _ => None
  end.

(** The body of the full handler's 500 response. *)
Definition error_body (message timestamp : string) : json_text :=
  json_dumps
    (JObj [("error", JStr "Lambda execution failed");
           ("message", JStr message);
           ("timestamp", JStr timestamp)]).

End Properties.

(* ================================================================== *)
(** * Facts about strings and paths *)

Section StringFacts.
Import Str.

Lemma rfind_lower (c : ascii) (p : string) : -1 <= rfind c p.
Proof.
  induction p as [|a t IH]; simpl; [lia|].
  destruct (0 <=? rfind c t) eqn:E; [apply Z.leb_le in E; lia|].
  destruct (Ascii.eqb a c); lia.
Qed.

Lemma rfind_upper (c : ascii) (p : string) : rfind c p < len p.
Proof.
  unfold len. induction p as [|a t IH]; simpl String.length; simpl rfind; [lia|].
  destruct (0 <=? rfind c t) eqn:E; [apply Z.leb_le in E; lia|].
  destruct (Ascii.eqb a c); lia.
Qed.

Lemma rfind_absent (c : ascii) (p : string) :
  has_char c p = false -> rfind c p = -1.
Proof.
  induction p as [|a t IH]; simpl; [reflexivity|].
  intros H. apply orb_false_iff in H. destruct H as [Ha Ht].
  rewrite (IH Ht), Ha. reflexivity.
Qed.

Lemma rfind_present (c : ascii) (p : string) :
  has_char c p = true -> 0 <= rfind c p.
Proof.
  induction p as [|a t IH]; simpl; [discriminate|].
  intros H. destruct (0 <=? rfind c t) eqn:E.
  - apply Z.leb_le in E. lia.
  - destruct (Ascii.eqb a c); [lia|]. simpl in H. apply IH in H.
    apply Z.leb_gt in E. lia.
Qed.

Lemma len_app (a b : string) : len (a ++ b) = len a + len b.
Proof.
  unfold len. induction a as [|x a IH]; simpl String.length; [simpl; lia|].
  simpl String.append. simpl String.length. lia.
Qed.

Lemma append_assoc (a b c : string) : (a ++ b) ++ c = a ++ b ++ c.
Proof. induction a as [|x a IH]; simpl; [reflexivity|]. now rewrite IH. Qed.

Lemma append_empty (a : string) : a ++ "" = a.
Proof. induction a as [|x a IH]; simpl; [reflexivity|]. now rewrite IH. Qed.

Lemma len_nonneg (a : string) : 0 <= len a.
Proof. unfold len. lia. Qed.

Lemma rfind_app (c : ascii) (a b : string) :
  rfind c (a ++ b) =
  if 0 <=? rfind c b then len a + rfind c b else rfind c a.
Proof.
  induction a as [|x a IH].
  - simpl. pose proof (rfind_lower c b).
    destruct (0 <=? rfind c b) eqn:E; [unfold len; simpl; lia|].
    apply Z.leb_gt in E. lia.
  - simpl String.append. simpl rfind. rewrite IH.
    destruct (0 <=? rfind c b) eqn:E.
    + apply Z.leb_le in E. pose proof (len_nonneg a).
      replace (0 <=? len a + rfind c b) with true by (symmetry; apply Z.leb_le; lia).
      unfold len. simpl String.length. lia.
    + reflexivity.
Qed.

Lemma take_app (a b : string) (n : nat) :
  take (String.length a + n) (a ++ b) = a ++ take n b.
Proof. induction a as [|x a IH]; simpl; [reflexivity|]. now rewrite IH. Qed.

Lemma drop_app (a b : string) (n : nat) :
  drop (String.length a + n) (a ++ b) = drop n b.
Proof. induction a as [|x a IH]; simpl; [reflexivity|]. exact IH. Qed.

Lemma take_all (a : string) : take (String.length a) a = a.
Proof. induction a as [|x a IH]; simpl; [reflexivity|]. now rewrite IH. Qed.

Lemma take_drop (n : nat) (p : string) : take n p ++ drop n p = p.
Proof.
  revert p. induction n as [|n IH]; intros [|x p]; simpl; try reflexivity.
  now rewrite IH.
Qed.

Lemma has_char_app (c : ascii) (a b : string) :
  has_char c (a ++ b) = has_char c a || has_char c b.
Proof.
  induction a as [|x a IH]; simpl; [reflexivity|].
  rewrite IH. now rewrite orb_assoc.
Qed.

Lemma has_char_take (c : ascii) (n : nat) (p : string) :
  has_char c p = false -> has_char c (take n p) = false.
Proof.
  intros H. rewrite <- (take_drop n p), has_char_app in H.
  now apply orb_false_iff in H.
Qed.

Lemma to_nat_shift (a : string) (i : Z) :
  0 <= i -> Z.to_nat (len a + i) = (String.length a + Z.to_nat i)%nat.
Proof. unfold len. lia. Qed.

Lemma slice_to_app (a b : string) (i : Z) :
  0 <= i -> slice_to (len a + i) (a ++ b) = a ++ slice_to i b.
Proof. intros H. unfold slice_to. rewrite to_nat_shift by exact H. apply take_app. Qed.

Lemma slice_from_app (a b : string) (i : Z) :
  0 <= i -> slice_from (len a + i) (a ++ b) = slice_from i b.
Proof. intros H. unfold slice_from. rewrite to_nat_shift by exact H. apply drop_app. Qed.

Lemma slice1_app (a b : string) (i : Z) :
  0 <= i -> slice1 (len a + i) (a ++ b) = slice1 i b.
Proof. intros H. unfold slice1. now rewrite slice_from_app. Qed.

End StringFacts.

Section PathFacts.
Import Str PosixPath.

Lemma skip_leading_dots_app (n : nat) (a b : string) (i d : Z) :
  0 <= i -> 0 <= d ->
  skip_leading_dots n (a ++ b) (len a + i) (len a + d) =
  option_map (fun r => (a ++ fst r, snd r)) (skip_leading_dots n b i d).
Proof.
  revert i. induction n as [|n IH]; intros i Hi Hd; simpl; [reflexivity|].
  rewrite slice1_app by exact Hi.
  destruct (String.eqb (slice1 i b) _).
  - replace (len a + i + 1) with (len a + (i + 1)) by lia.
    apply IH; lia.
  - simpl. now rewrite slice_to_app, slice_from_app.
Qed.

Lemma skip_leading_dots_prefix (n : nat) (p : string) (i d : Z) r :
  skip_leading_dots n p i d = Some r -> r = (slice_to d p, slice_from d p).
Proof.
  revert i. induction n as [|n IH]; intros i; simpl; [discriminate|].
  destruct (String.eqb _ _); [apply IH|]. now intros [= <-].
Qed.

(** The root [splitext] returns is a prefix of the path. *)
Lemma splitext_root_prefix (p : string) :
  exists n, fst (splitext p) = take n p.
Proof.
  unfold splitext.
  destruct (rfind sep p <? rfind extsep p).
  - destruct (skip_leading_dots _ _ _ _) as [r|] eqn:E.
    + apply skip_leading_dots_prefix in E. subst r. now eexists.
    + exists (String.length p). simpl. now rewrite take_all.
  - exists (String.length p). simpl. now rewrite take_all.
Qed.

Lemma splitext_root_no_sep (name : string) :
  has_char sep name = false -> has_char sep (fst (splitext name)) = false.
Proof.
  intros H. destruct (splitext_root_prefix name) as [n ->].
  now apply has_char_take.
Qed.

Lemma rfind_sep_dir (dir name : string) :
  has_char sep name = false -> rfind sep (dir ++ "/" ++ name) = len dir.
Proof.
  intros H. rewrite rfind_app. simpl. rewrite (rfind_absent _ _ H). simpl. lia.
Qed.

(** [splitext] works on the last component and leaves the directory. *)
Lemma splitext_dir (dir name : string) :
  has_char sep name = false ->
  splitext (dir ++ "/" ++ name) =
  (dir ++ "/" ++ fst (splitext name), snd (splitext name)).
Proof.
  intros H. unfold splitext at 1.
  rewrite (rfind_sep_dir _ _ H).
  replace (dir ++ "/" ++ name) with ((dir ++ "/") ++ name)
    by apply append_assoc.
  rewrite (rfind_app extsep (dir ++ "/") name).
  assert (L : len (dir ++ "/") = len dir + 1) by (rewrite len_app; reflexivity).
  unfold splitext. rewrite (rfind_absent _ _ H).
  pose proof (rfind_lower extsep name) as Hlo.
  destruct (0 <=? rfind extsep name) eqn:E.
  - apply Z.leb_le in E.
    replace (len dir <? len (dir ++ "/") + rfind extsep name) with true
      by (symmetry; apply Z.ltb_lt; lia).
    replace (-1 <? rfind extsep name) with true
      by (symmetry; apply Z.ltb_lt; lia).
    replace (len (dir ++ "/") + rfind extsep name - (len dir + 1))
      with (rfind extsep name - (-1 + 1)) by lia.
    replace (len dir + 1) with (len (dir ++ "/") + (-1 + 1)) by lia.
    rewrite skip_leading_dots_app by lia.
    destruct (skip_leading_dots _ name _ _) as [[r e]|]; simpl.
    + now rewrite append_assoc.
    + now rewrite append_assoc.
  - apply Z.leb_gt in E.
    replace (-1 <? rfind extsep name) with false
      by (symmetry; apply Z.ltb_ge; lia).
    pose proof (rfind_upper extsep (dir ++ "/")) as Hup.
    assert (rfind extsep (dir ++ "/") <= len dir).
    { rewrite rfind_app. simpl. pose proof (rfind_upper extsep dir). lia. }
    replace (len dir <? rfind extsep (dir ++ "/")) with false
      by (symmetry; apply Z.ltb_ge; lia).
    simpl. now rewrite append_assoc.
Qed.

Lemma basename_no_sep (name : string) :
  has_char sep name = false -> basename name = name.
Proof. intros H. unfold basename. now rewrite (rfind_absent _ _ H). Qed.

Lemma basename_dir (dir name : string) :
  has_char sep name = false -> basename (dir ++ "/" ++ name) = name.
Proof.
  intros H. unfold basename. rewrite (rfind_sep_dir _ _ H).
  replace (dir ++ "/" ++ name) with ((dir ++ "/") ++ name)
    by apply append_assoc.
  replace (len dir + 1) with (len (dir ++ "/") + 0)
    by (rewrite len_app; change (len "/") with 1; lia).
  now rewrite slice_from_app by lia.
Qed.

(** Every key is a last component, or a directory, a [/] and a last
    component. *)
Lemma key_components (key : string) :
  has_char sep key = false \/
  exists dir name, key = dir ++ "/" ++ name /\ has_char sep name = false.
Proof.
  induction key as [|a t IH]; [now left|].
  destruct IH as [H | (dir & name & -> & H)].
  - destruct (Ascii.eqb a sep) eqn:E.
    + right. exists "", t. apply Ascii.eqb_eq in E. subst a. now split.
    + left. simpl. now rewrite E.
  - right. exists (String a dir), name. now split.
Qed.

End PathFacts.

Section KeyDeriverFacts.
Import Str PosixPath KeyDeriver.

(** Stripping the extension and taking the base name commute. *)
Lemma basename_splitext (key : string) :
  basename (fst (splitext key)) = fst (splitext (basename key)).
Proof.
  destruct (key_components key) as [H | (dir & name & -> & H)].
  - rewrite (basename_no_sep key H).
    apply basename_no_sep, splitext_root_no_sep, H.
  - rewrite (splitext_dir _ _ H), (basename_dir _ _ H). simpl.
    apply basename_dir, splitext_root_no_sep, H.
Qed.

(** A last component [stem.ext] whose stem does not start with a dot
    loses [.ext]. *)
Lemma splitext_stem_ext (c : ascii) (stem ext : string) :
  c <> extsep ->
  has_char sep (String c stem) = false ->
  has_char sep ext = false -> has_char extsep ext = false ->
  splitext (String c stem ++ "." ++ ext) = (String c stem, "." ++ ext).
Proof.
  intros Hc Hs He Hd. unfold splitext.
  assert (Hsep : rfind sep (String c stem ++ "." ++ ext) = -1).
  { apply rfind_absent. rewrite has_char_app, Hs. simpl. exact He. }
  assert (Hdot : rfind extsep (String c stem ++ "." ++ ext) = len (String c stem) + 0).
  { rewrite rfind_app. simpl rfind. rewrite (rfind_absent _ _ Hd). reflexivity. }
  rewrite Hsep, Hdot.
  pose proof (len_nonneg stem) as Hn.
  assert (Hl : len (String c stem) = len stem + 1)
    by (unfold len; simpl String.length; lia).
  replace (-1 <? len (String c stem) + 0) with true
    by (symmetry; apply Z.ltb_lt; lia).
  replace (Z.to_nat (len (String c stem) + 0 - (-1 + 1)))
    with (S (String.length stem)) by (unfold len in *; lia).
  simpl skip_leading_dots.
  destruct (Ascii.eqb_spec c extsep) as [E|_]; [now elim Hc|].
  rewrite <- (Z.add_0_r (len (String c stem))) at 1 2.
  change (String c (stem ++ String "." ext)) with (String c stem ++ "." ++ ext).
  rewrite slice_to_app, slice_from_app by lia.
  unfold slice_to, slice_from. simpl take. now rewrite append_empty.
Qed.

(** A key that is a dot and a dot-free name keeps all of it: the
    leading dot does not start an extension. *)
Lemma splitext_dotfile (ext : string) :
  has_char sep ext = false -> has_char extsep ext = false ->
  splitext ("." ++ ext) = ("." ++ ext, "").
Proof.
  intros He Hd. unfold splitext. simpl rfind.
  rewrite (rfind_absent _ _ He), (rfind_absent _ _ Hd). reflexivity.
Qed.

(** The reduced handler strips the extension only: the directory stays
    in the destination key. *)
Lemma lamcode_thumbnail_key_keeps_directory :
  lamcode_thumbnail_key "source/photo.png" = "thumbnails/source/photo_thumb.jpg".
Proof. reflexivity. Qed.

End KeyDeriverFacts.

Section KeyClaims.
Import Str PosixPath KeyDeriver.

(** C4, as the spec states it, fails on [src/lamcode.py]: its key
    derivation strips the extension but keeps the directory, so
    [source/photo.png] maps to [thumbnails/source/photo_thumb.jpg], which
    is neither [thumbnails/photo_thumb.jpg] nor built from the base name. *)
Lemma lamcode_key_counterexample :
  lamcode_thumbnail_key "source/photo.png" = "thumbnails/source/photo_thumb.jpg"
  /\ lamcode_thumbnail_key "source/photo.png" <> "thumbnails/photo_thumb.jpg"
  /\ lamcode_thumbnail_key "source/photo.png"
     <> "thumbnails/" ++ baseNameNoExt "source/photo.png" ++ "_thumb.jpg".
Proof. split; [reflexivity | split; discriminate]. Qed.

(** C4, amended. The destination key of [src/docs/lambda-function.py] is
    [thumbnails/{baseNameNoExt}_thumb.jpg] for every source key (the empty
    one included): [baseNameNoExt] is the last component of the key without
    its extension, so the key does not depend on the directory prefix, a
    component [stem.ext] contributes [stem], and [source/photo.png] maps to
    [thumbnails/photo_thumb.jpg].  The destination key of [src/lamcode.py]
    strips the extension of the last component only: it is the same key
    for a source key without [/], and keeps the directory prefix of any
    other, so that [source/photo.png] maps to
    [thumbnails/source/photo_thumb.jpg]. *)
Theorem thumbnail_key_derivation :
  (forall key,
      thumbnail_key key = "thumbnails/" ++ baseNameNoExt key ++ "_thumb.jpg")
  /\ (forall dir name,
         has_char sep name = false ->
         thumbnail_key (dir ++ "/" ++ name) = thumbnail_key name)
  /\ (forall dir c stem ext,
         c <> extsep ->
         has_char sep (String c stem) = false ->
         has_char sep ext = false -> has_char extsep ext = false ->
         thumbnail_key (dir ++ "/" ++ String c stem ++ "." ++ ext)
         = "thumbnails/" ++ String c stem ++ "_thumb.jpg")
  /\ thumbnail_key "source/photo.png" = "thumbnails/photo_thumb.jpg"
  /\ (forall name,
         has_char sep name = false ->
         lamcode_thumbnail_key name
         = "thumbnails/" ++ baseNameNoExt name ++ "_thumb.jpg")
  /\ (forall dir name,
         has_char sep name = false ->
         lamcode_thumbnail_key (dir ++ "/" ++ name)
         = "thumbnails/" ++ (dir ++ "/" ++ baseNameNoExt name) ++ "_thumb.jpg")
  /\ lamcode_thumbnail_key "source/photo.png"
     = "thumbnails/source/photo_thumb.jpg".
Proof.
  assert (K : forall key,
             thumbnail_key key
             = "thumbnails/" ++ baseNameNoExt key ++ "_thumb.jpg").
  { intros key. unfold thumbnail_key, baseNameNoExt.
    now rewrite basename_splitext. }
  assert (D : forall dir name,
             has_char sep name = false ->
             thumbnail_key (dir ++ "/" ++ name) = thumbnail_key name).
  { intros dir name H. rewrite !K. unfold baseNameNoExt.
    now rewrite (basename_dir _ _ H), (basename_no_sep _ H). }
  split; [exact K | split; [exact D | split; [| split; [reflexivity|]]]].
  - intros dir c stem ext Hc Hs He Hd.
    rewrite D.
    + unfold thumbnail_key.
      rewrite (splitext_stem_ext c stem ext Hc Hs He Hd). cbn [fst].
      now rewrite (basename_no_sep _ Hs).
    + rewrite has_char_app, Hs. simpl. exact He.
  - split; [|split; [|reflexivity]].
    + intros name H. unfold lamcode_thumbnail_key, baseNameNoExt.
      now rewrite (basename_no_sep _ H).
    + intros dir name H. unfold lamcode_thumbnail_key, baseNameNoExt.
      now rewrite (splitext_dir dir name H), (basename_no_sep _ H).
Qed.

Lemma thumbnail_key_derivation_witness :
  thumbnail_key ("2024/05" ++ "/" ++ "photo.final.png") = thumbnail_key "photo.final.png"
  /\ thumbnail_key ("a" ++ "/" ++ String "c" "at" ++ "." ++ "jpeg")
     = "thumbnails/" ++ String "c" "at" ++ "_thumb.jpg"
  /\ lamcode_thumbnail_key "photo.final.png"
     = "thumbnails/" ++ baseNameNoExt "photo.final.png" ++ "_thumb.jpg"
  /\ lamcode_thumbnail_key ("2024/05" ++ "/" ++ "photo.final.png")
     = "thumbnails/" ++ ("2024/05" ++ "/" ++ baseNameNoExt "photo.final.png")
         ++ "_thumb.jpg".
Proof.
  split; [|split; [|split]].
  - apply (proj1 (proj2 thumbnail_key_derivation)). reflexivity.
  - apply (proj1 (proj2 (proj2 thumbnail_key_derivation)));
      [discriminate | reflexivity | reflexivity | reflexivity].
  - apply (proj1 (proj2 (proj2 (proj2 (proj2 thumbnail_key_derivation))))).
    reflexivity.
  - apply (proj1 (proj2 (proj2 (proj2 (proj2 (proj2 thumbnail_key_derivation)))))).
    reflexivity.
Defined.

(** C9, as the spec states it, fails: the key [.png] does not yield an
    empty base name. *)
Lemma bare_extension_counterexample :
  thumbnail_key ".png" = "thumbnails/.png_thumb.jpg"
  /\ thumbnail_key ".png" <> "thumbnails/_thumb.jpg".
Proof. split; [reflexivity | discriminate]. Qed.

(** C9, amended. For a source key that is a dot followed by a name with
    no further dot and no [/] (such as [.png]), [os.path.splitext] strips
    nothing, the base name is the whole key, and both handlers derive
    [thumbnails/{key}_thumb.jpg]. *)
Theorem thumbnail_key_bare_extension (ext : string) :
  has_char sep ext = false -> has_char extsep ext = false ->
  baseNameNoExt ("." ++ ext) = "." ++ ext
  /\ thumbnail_key ("." ++ ext) = "thumbnails/" ++ "." ++ ext ++ "_thumb.jpg"
  /\ lamcode_thumbnail_key ("." ++ ext)
     = "thumbnails/" ++ "." ++ ext ++ "_thumb.jpg".
Proof.
  intros He Hd.
  assert (Hs : has_char sep ("." ++ ext) = false) by (simpl; exact He).
  split; [| split].
  - unfold baseNameNoExt. rewrite (basename_no_sep _ Hs).
    now rewrite (splitext_dotfile ext He Hd).
  - unfold thumbnail_key. rewrite (splitext_dotfile ext He Hd). cbn [fst].
    now rewrite (basename_no_sep _ Hs).
  - unfold lamcode_thumbnail_key. now rewrite (splitext_dotfile ext He Hd).
Qed.

Lemma thumbnail_key_bare_extension_witness :
  baseNameNoExt ".png" = ".png"
  /\ thumbnail_key ".png" = "thumbnails/.png_thumb.jpg"
  /\ lamcode_thumbnail_key ".png" = "thumbnails/.png_thumb.jpg".
Proof. apply (thumbnail_key_bare_extension "png"); reflexivity. Defined.

End KeyClaims.

(* ================================================================== *)
(** * Facts about the handlers *)

Section HandlerFacts.
Import Py PIL Aws LambdaFunction Properties.

Variable w : world.

(** Unfolding one step of a computation. *)
Ltac step :=
  unfold bind, lift, ret, raise, log, call, now, try_except, publish; simpl.

Lemma len_iter (v : json) (items : list json) :
  iter v = Ok items -> len v = Ok (Z.of_nat (length items)).
Proof.
  destruct v; simpl; try discriminate; intros [= <-]; f_equal.
  - f_equal. induction s as [|a s IH]; simpl; [reflexivity|]. now rewrite IH.
  - now rewrite length_map.
Qed.

(** The outer [except] clause always returns a 500 response, after one
    attempt at the fatal notification, whether that attempt succeeds. *)
Lemma invocation_failed_returns (e : exn) (tr : trace) :
  exists tr' t,
    invocation_failed w e tr
    = (tr', Ok (Response 500 (error_body (exn_str e) t)))
    /\ fetches tr' = fetches tr
    /\ uploads tr' = uploads tr
    /\ exists m, notifications tr'
       = (notifications tr
            ++ [Publish (SNS_TOPIC_ARN w) CriticalLambdaFunctionError m])%list.
Proof.
  unfold invocation_failed. step.
  destruct (sns_publish w _ _ _ _) as [[]|e']; simpl;
    eexists; eexists; (split; [reflexivity|]);
    unfold fetches, uploads, notifications;
    repeat rewrite !filter_app; simpl; rewrite ?app_nil_r;
    (split; [reflexivity|]); (split; [reflexivity|]);
    eexists; reflexivity.
Qed.

(** A normal end of the outer [try] is a 200 response. *)
Lemma invocation_returns (event : json) (tr tr' : trace) (r : response) :
  invocation w event tr = (tr', Ok r) ->
  statusCode r = 200.
Proof.
  unfold invocation. step.
  destruct (get event "Records" (JArr [])) as [records|]; [|discriminate].
  destruct (iter records) as [items|]; [|discriminate].
  destruct (for_records w items _) as [tr1 [[]|]]; [|discriminate].
  destruct (len records) as [n|]; [|discriminate].
  now intros [= _ <-].
Qed.


(** When the loop ends normally the handler returns 200 and counts every
    item it iterated over. *)
Lemma lambda_handler_completed (event records : json) (items : list json)
      (tr tr' : trace) :
  get event "Records" (JArr []) = Ok records ->
  iter records = Ok items ->
  for_records w items
    ((tr ++ [Log INFO "Lambda function triggered"]) ++ [Log INFO "Event"])%list
  = (tr', Ok tt) ->
  lambda_handler w event tr
  = ((tr' ++ [Log INFO "Lambda execution completed successfully"])%list,
     Ok (Response 200 (ok_body (Z.of_nat (length items)) (datetime_now w tr')))).
Proof.
  intros Hg Hi Hl. unfold lambda_handler, invocation. step.
  rewrite Hg, Hi, Hl, (len_iter _ _ Hi). reflexivity.
Qed.

Lemma extends_ret {A} (a : A) : extends (ret a).
Proof. intros tr tr' r [= <- _]. exists []. now rewrite app_nil_r. Qed.

Lemma extends_lift {A} (x : result A) : extends (lift x).
Proof. intros tr tr' r [= <- _]. exists []. now rewrite app_nil_r. Qed.

Lemma extends_now : extends (now w).
Proof. intros tr tr' r [= <- _]. exists []. now rewrite app_nil_r. Qed.

Lemma extends_call {A} (ev : event) (answer : trace -> result A) :
  extends (call ev answer).
Proof. intros tr tr' r [= <- _]. now exists [ev]. Qed.

Lemma extends_bind {A B} (m : M A) (k : A -> M B) :
  extends m -> (forall a, extends (k a)) -> extends (bind m k).
Proof.
  intros Hm Hk tr tr' r. unfold bind.
  destruct (m tr) as [tr1 [a|e]] eqn:E; destruct (Hm _ _ _ E) as [ext ->].
  - intros H. destruct (Hk _ _ _ _ H) as [ext' ->].
    exists (ext ++ ext')%list. now rewrite app_assoc.
  - intros [= <- _]. now exists ext.
Qed.

Lemma extends_try {A} (m : M A) (h : exn -> M A) :
  extends m -> (forall e, extends (h e)) -> extends (try_except m h).
Proof.
  intros Hm Hh tr tr' r. unfold try_except.
  destruct (m tr) as [tr1 [a|e]] eqn:E; destruct (Hm _ _ _ E) as [ext ->].
  - intros [= <- _]. now exists ext.
  - intros H. destruct (Hh _ _ _ _ H) as [ext' ->].
    exists (ext ++ ext')%list. now rewrite app_assoc.
Qed.

Ltac extends_tac :=
  repeat first
    [ apply extends_ret | apply extends_lift | apply extends_now
    | apply extends_call
    | apply extends_try; [|intros ?]
    | apply extends_bind; [|intros ?] ].

Lemma extends_process_record (record : json) : extends (process_record w record).
Proof. unfold process_record, get_object, put_object, publish, log. extends_tac. Qed.

Lemma extends_handle_record (record : json) : extends (handle_record w record).
Proof.
  unfold handle_record, record_failed, publish, log.
  apply extends_try; [apply extends_process_record|intros ?]. extends_tac.
Qed.

Lemma extends_for_records (records : list json) : extends (for_records w records).
Proof.
  induction records as [|r rest IH]; simpl; [apply extends_ret|].
  apply extends_bind; [apply extends_handle_record | intros _; exact IH].
Qed.

(** A well-formed record always gets its fetch attempted. *)
Lemma process_record_fetches (bucket key : string) (tr tr' : trace) r :
  process_record w (Scenario.record_of bucket key) tr = (tr', r) ->
  In (GetObject bucket key) tr'.
Proof.
  unfold process_record, get_object. unfold bind, lift, log, call. simpl.
  repeat match goal with
         | |- match ?x with _ => _ end = _ -> _ => destruct x
         end;
    intros [= <- _]; rewrite !in_app_iff; simpl; tauto.
Qed.

Lemma handle_record_fetches (bucket key : string) (tr tr' : trace) r :
  handle_record w (Scenario.record_of bucket key) tr = (tr', r) ->
  In (GetObject bucket key) tr'.
Proof.
  unfold handle_record, try_except.
  destruct (process_record w _ tr) as [tr1 [[]|e]] eqn:E;
    pose proof (process_record_fetches _ _ _ _ _ E) as Hin.
  - now intros [= <- _].
  - intros H. destruct (extends_handle_record (Scenario.record_of bucket key) tr tr' r) as [ext Hext].
    { unfold handle_record, try_except. now rewrite E. }
    assert (X : extends (record_failed w (Scenario.record_of bucket key) e)).
    { unfold record_failed, publish, log. extends_tac. }
    destruct (X _ _ _ H) as [ext' ->]. apply in_or_app. now left.
Qed.

(** One turn of the loop ends normally whenever the failure notification
    can be composed and is delivered. *)
Lemma handle_record_returns (record : json) (tr : trace) :
  failure_notices_delivered w -> context_readable record ->
  exists tr', handle_record w record tr = (tr', Ok tt).
Proof.
  intros Hd (b & k & Hb & Hk). unfold handle_record, try_except.
  destruct (process_record w record tr) as [tr1 [[]|e]]; [now eexists|].
  unfold record_failed. step. rewrite Hb. simpl. rewrite Hk. simpl.
  unfold call. rewrite Hd. now eexists.
Qed.

Lemma record_of_readable (bucket key : string) :
  context_readable (Scenario.record_of bucket key).
Proof. exists (JStr bucket), (JStr key). now split. Qed.

(** Per-record isolation: if SNS delivers the per-record failure
    notifications, every record of a batch of well-formed records has its
    fetch attempted and the loop ends normally, whichever records fail
    and at whichever step. *)
Lemma batch_survives_record_failures (keys : list (string * string)) (tr : trace) :
  failure_notices_delivered w ->
  exists tr',
    for_records w (map (fun bk => Scenario.record_of (fst bk) (snd bk)) keys) tr
    = (tr', Ok tt)
    /\ forall bucket key, In (bucket, key) keys -> In (GetObject bucket key) tr'.
Proof.
  intros Hd. revert tr. induction keys as [|[b k] rest IH]; intros tr; simpl.
  - exists tr. split; [reflexivity | intros ? ? []].
  - unfold bind.
    destruct (handle_record_returns (Scenario.record_of b k) tr Hd
                (record_of_readable b k)) as [tr1 H1].
    rewrite H1. destruct (IH tr1) as (tr' & H2 & Hin). exists tr'.
    split; [exact H2|]. intros bucket key [[= <- <-]|Hr]; [|now apply Hin].
    pose proof (handle_record_fetches _ _ _ _ _ H1) as Hf.
    destruct (extends_for_records _ _ _ _ H2) as [ext ->].
    apply in_or_app. now left.
Qed.

End HandlerFacts.

Section LamcodeFacts.
Import Py PIL Aws Properties.

Variable w : world.

(** The reduced handler's [except] clause attempts one notification and
    lets its failure out. *)
Lemma lamcode_invocation_failed (e : exn) (tr : trace) :
  Lamcode.invocation_failed w e tr
  = ((tr ++ [Log ERROR ("Error processing image: " ++ exn_str e);
             Publish (SNS_TOPIC_ARN w) (SubjectText "Image Processing Error")
                     (MessageText ("Error: " ++ exn_str e))])%list,
     match sns_publish w (tr ++ [Log ERROR ("Error processing image: " ++ exn_str e)])%list
                       (SNS_TOPIC_ARN w) (SubjectText "Image Processing Error")
                       (MessageText ("Error: " ++ exn_str e)) with
     | Ok _ => Ok (Response 500 (json_dumps (JStr ("Error: " ++ exn_str e))))
     | Raise e' => Raise e'
     end).
Proof.
  unfold Lamcode.invocation_failed, bind, log, publish, call, ret.
  rewrite <- app_assoc. simpl.
  now destruct (sns_publish w _ _ _ _).
Qed.

(** The reduced handler on an empty batch: no remote call, status 200, a
    fixed body without a record count. *)
Lemma lamcode_empty_batch (members : list (string * json)) (tr : trace) :
  lookup "Records" members = Some (JArr []) ->
  Lamcode.lambda_handler w (JObj members) tr
  = (tr, Ok (Response 200 (json_dumps (JStr "Thumbnails generated successfully!")))).
Proof.
  intros H. unfold Lamcode.lambda_handler, try_except, Lamcode.invocation.
  unfold bind, lift. simpl. now rewrite H.
Qed.

(** The reduced handler has no per-record isolation: the first failing
    record ends the batch. *)
Lemma lamcode_first_failure_ends_batch :
  let out := Lamcode.lambda_handler Scenario.sns_up
               (Scenario.event_of [Scenario.record_of "src" "missing.png";
                                   Scenario.record_of "src" "source/photo.png"]) [] in
  snd out = Ok (Response 500
                  (json_dumps (JStr "Error: The specified key does not exist.")))
  /\ fetches (fst out) = [GetObject "src" "missing.png"].
Proof. now split. Qed.

End LamcodeFacts.

Section HandlerClaims.
Import Py PIL Aws Properties Scenario.

(** C10. For every environment and every event, [lambda_handler] of
    [src/docs/lambda-function.py] returns a response and raises nothing;
    its status code is 200 or 500 and its body is the output of
    [json.dumps].  The environment is arbitrary, so this holds also when
    the fatal notification itself is refused. *)
Theorem lambda_handler_always_returns (w : world) (event : json) (tr : trace) :
  exists tr' r,
    LambdaFunction.lambda_handler w event tr = (tr', Ok r)
    /\ (statusCode r = 200 \/ statusCode r = 500)
    /\ exists v, body r = json_dumps v.
Proof.
  unfold LambdaFunction.lambda_handler, try_except.
  destruct (LambdaFunction.invocation w event tr) as [tr1 [r|e]] eqn:E.
  - exists tr1, r. split; [reflexivity|]. split.
    + left. exact (invocation_returns w _ _ _ _ E).
    + destruct (body r) as [v]. now exists v.
  - destruct (invocation_failed_returns w e tr1) as (tr' & t & H & _).
    rewrite H. exists tr'. eexists. split; [reflexivity|].
    split; [now right | now eexists].
Qed.

(** The reduced handler of [src/lamcode.py] has no such guarantee: with
    SNS down and [Records] missing, the exception of its unguarded
    [publish] reaches the invoker. *)
Lemma lamcode_handler_may_raise :
  snd (Lamcode.lambda_handler sns_down (JObj []) []) = Raise SnsDown.
Proof. reflexivity. Qed.

(** C3. When the record loop of [src/docs/lambda-function.py] ends
    normally, [lambda_handler] returns status 200 with [records_processed]
    equal to the number of records in the event, whatever happened to the
    individual records. *)
Theorem completed_iteration_reports_all_records
        (w : world) (members : list (string * json)) (records : list json)
        (tr tr' : trace) :
  lookup "Records" members = Some (JArr records) ->
  LambdaFunction.for_records w records
    ((tr ++ [Log INFO "Lambda function triggered"]) ++ [Log INFO "Event"])%list
  = (tr', Ok tt) ->
  LambdaFunction.lambda_handler w (JObj members) tr
  = ((tr' ++ [Log INFO "Lambda execution completed successfully"])%list,
     Ok (Response 200
           (ok_body (Z.of_nat (length records)) (datetime_now w tr')))).
Proof.
  intros Hl Hloop.
  apply (lambda_handler_completed w (JObj members) (JArr records));
    [simpl; now rewrite Hl | reflexivity | exact Hloop].
Qed.

Lemma completed_iteration_reports_all_records_witness :
  exists tr',
    LambdaFunction.lambda_handler sns_up
      (JObj [("Records", JArr [record_of "src" "missing.png";
                               record_of "src" "source/photo.png"])]) []
    = ((tr' ++ [Log INFO "Lambda execution completed successfully"])%list,
       Ok (Response 200 (ok_body 2 "2024-01-01T00:00:00")))
    /\ In (ErrorProcessingImage (JStr "missing.png")) (subjects tr').
Proof.
  eexists. split.
  - apply (completed_iteration_reports_all_records sns_up
             [("Records", JArr [record_of "src" "missing.png";
                               record_of "src" "source/photo.png"])]
             [record_of "src" "missing.png"; record_of "src" "source/photo.png"]
             []); [reflexivity | vm_compute; reflexivity].
  - vm_compute. tauto.
Defined.

(** C8, as the spec states it, fails on [src/lamcode.py]: for an empty
    [Records] list its response has status 200, but the body is a fixed
    text, not an object, and has no [records_processed]. *)
Lemma empty_batch_counterexample :
  let out := Lamcode.lambda_handler sns_up (event_of []) [] in
  snd out
  = Ok (Response 200 (json_dumps (JStr "Thumbnails generated successfully!")))
  /\ (forall r, snd out = Ok r -> records_processed (body r) = None)
  /\ ~ (exists r, snd out = Ok r /\ records_processed (body r) = Some (JNum 0)).
Proof.
  split; [reflexivity|]. split.
  - intros r [= <-]. reflexivity.
  - intros (r & [= <-] & H). discriminate H.
Qed.

(** C8, amended. For an event whose [Records] list is empty,
    [lambda_handler] of [src/docs/lambda-function.py] fetches nothing,
    uploads nothing, sends no notification, and returns status 200 with
    [records_processed] 0.  [lambda_handler] of [src/lamcode.py] makes no
    call at all on such an event and returns status 200 too, but its body
    is the fixed text [Thumbnails generated successfully!], without a
    [records_processed] count. *)
Theorem empty_batch (w : world) (members : list (string * json)) :
  lookup "Records" members = Some (JArr []) ->
  (exists tr' t,
      LambdaFunction.lambda_handler w (JObj members) []
      = (tr', Ok (Response 200 (ok_body 0 t)))
      /\ records_processed (ok_body 0 t) = Some (JNum 0)
      /\ fetches tr' = [] /\ uploads tr' = [] /\ notifications tr' = [])
  /\ Lamcode.lambda_handler w (JObj members) []
     = ([], Ok (Response 200
                  (json_dumps (JStr "Thumbnails generated successfully!"))))
  /\ records_processed (json_dumps (JStr "Thumbnails generated successfully!"))
     = None.
Proof.
  intros Hl. split; [|split; [|reflexivity]].
  - eexists. eexists. split.
    + apply (lambda_handler_completed w (JObj members) (JArr []) []);
        [simpl; now rewrite Hl | reflexivity | reflexivity].
    + now repeat split.
  - now apply lamcode_empty_batch.
Qed.

Lemma empty_batch_witness :
  (exists tr' t,
      LambdaFunction.lambda_handler sns_down (event_of []) []
      = (tr', Ok (Response 200 (ok_body 0 t)))
      /\ records_processed (ok_body 0 t) = Some (JNum 0)
      /\ fetches tr' = [] /\ uploads tr' = [] /\ notifications tr' = [])
  /\ Lamcode.lambda_handler sns_down (event_of []) []
     = ([], Ok (Response 200
                  (json_dumps (JStr "Thumbnails generated successfully!"))))
  /\ records_processed (json_dumps (JStr "Thumbnails generated successfully!"))
     = None.
Proof. apply (empty_batch sns_down [("Records", JArr [])]). reflexivity. Defined.

(** C2, as the spec states it, fails: for the event [{}], which has no
    [Records] field, the full handler returns 200 and attempts no
    notification. *)
Lemma missing_Records_counterexample :
  let out := LambdaFunction.lambda_handler sns_up (JObj []) [] in
  snd out = Ok (Response 200 (ok_body 0 "2024-01-01T00:00:00"))
  /\ notifications (fst out) = []
  /\ ~ (exists r, snd out = Ok r /\ statusCode r = 500).
Proof.
  split; [reflexivity|]. split; [reflexivity|].
  intros (r & H & Hs). vm_compute in H. injection H as <-. discriminate.
Qed.

(** C2, amended. An event object without a [Records] field is treated by
    [src/docs/lambda-function.py] as an empty batch: status 200,
    [records_processed] 0, no fetch, upload or notification.  Its 500
    path, with exactly one best-effort fatal notification, is taken by an
    event that is not an object at all.  [src/lamcode.py] does fail on the
    missing field: it attempts exactly one [Image Processing Error]
    notification, after one error log line and nothing else, and returns
    500 with body [Error: 'Records'] if SNS delivers that notification, else
    raises the exception SNS answered with. *)
Theorem missing_Records (w : world) :
  (forall members,
      lookup "Records" members = None ->
      exists tr' t,
        LambdaFunction.lambda_handler w (JObj members) []
        = (tr', Ok (Response 200 (ok_body 0 t)))
        /\ fetches tr' = [] /\ uploads tr' = [] /\ notifications tr' = [])
  /\ (forall event,
         (forall members, event <> JObj members) ->
         exists tr' t m,
           LambdaFunction.lambda_handler w event []
           = (tr', Ok (Response 500
                         (error_body ("'" ++ type_name event
                                          ++ "' object has no attribute 'get'") t)))
           /\ fetches tr' = [] /\ uploads tr' = []
           /\ notifications tr'
              = [Publish (SNS_TOPIC_ARN w) CriticalLambdaFunctionError m])
  /\ (forall members,
         lookup "Records" members = None ->
         Lamcode.lambda_handler w (JObj members) []
         = ([Log ERROR "Error processing image: 'Records'";
             Publish (SNS_TOPIC_ARN w) (SubjectText "Image Processing Error")
                     (MessageText "Error: 'Records'")],
            match sns_publish w [Log ERROR "Error processing image: 'Records'"]
                              (SNS_TOPIC_ARN w)
                              (SubjectText "Image Processing Error")
                              (MessageText "Error: 'Records'") with
            | Ok _ => Ok (Response 500 (json_dumps (JStr "Error: 'Records'")))
            | Raise e => Raise e
            end)).
Proof.
  split; [|split].
  - intros members Hl. eexists. eexists. split.
    + apply (lambda_handler_completed w (JObj members) (JArr []) []);
        [simpl; now rewrite Hl | reflexivity | reflexivity].
    + now repeat split.
  - intros event Hne.
    assert (Hg : get event "Records" (JArr [])
                 = Raise (Exn "AttributeError"
                              ("'" ++ type_name event
                                   ++ "' object has no attribute 'get'"))).
    { destruct event; try reflexivity. now elim (Hne members). }
    unfold LambdaFunction.lambda_handler, try_except, LambdaFunction.invocation.
    unfold bind at 1 2 3. unfold log at 1 2, call, lift at 1. rewrite Hg.
    destruct (invocation_failed_returns w
                (Exn "AttributeError"
                     ("'" ++ type_name event ++ "' object has no attribute 'get'"))
                (([] ++ [Log INFO "Lambda function triggered"])
                   ++ [Log INFO "Event"])%list)
      as (tr' & t & H & Hf & Hu & m & Hn).
    rewrite H. exists tr', t, m. split; [reflexivity|].
    rewrite Hf, Hu, Hn. now repeat split.
  - intros members Hl.
    unfold Lamcode.lambda_handler, try_except, Lamcode.invocation.
    unfold bind at 1, lift at 1. simpl getitem. rewrite Hl.
    rewrite lamcode_invocation_failed. reflexivity.
Qed.

Lemma missing_Records_witness :
  (exists tr' t,
      LambdaFunction.lambda_handler sns_down (JObj [("Detail", JNull)]) []
      = (tr', Ok (Response 200 (ok_body 0 t)))
      /\ fetches tr' = [] /\ uploads tr' = [] /\ notifications tr' = [])
  /\ (exists tr' t m,
         LambdaFunction.lambda_handler sns_down (JArr []) []
         = (tr', Ok (Response 500
                       (error_body "'list' object has no attribute 'get'" t)))
         /\ fetches tr' = [] /\ uploads tr' = []
         /\ notifications tr'
            = [Publish (SNS_TOPIC_ARN sns_down) CriticalLambdaFunctionError m])
  /\ Lamcode.lambda_handler sns_down (JObj [("Detail", JNull)]) []
     = ([Log ERROR "Error processing image: 'Records'";
         Publish (SNS_TOPIC_ARN sns_down) (SubjectText "Image Processing Error")
                 (MessageText "Error: 'Records'")],
        match sns_publish sns_down [Log ERROR "Error processing image: 'Records'"]
                          (SNS_TOPIC_ARN sns_down)
                          (SubjectText "Image Processing Error")
                          (MessageText "Error: 'Records'") with
        | Ok _ => Ok (Response 500 (json_dumps (JStr "Error: 'Records'")))
        | Raise e => Raise e
        end).
Proof.
  split; [|split].
  - apply (proj1 (missing_Records sns_down)). reflexivity.
  - apply (proj1 (proj2 (missing_Records sns_down)) (JArr [])). discriminate.
  - apply (proj2 (proj2 (missing_Records sns_down))). reflexivity.
Defined.

(** C1 fails on this input: two well-formed records, the first one
    missing from the bucket, SNS refusing notifications.  The refused
    failure notification leaves the loop: the second record is never
    fetched and the invocation ends with status 500. *)
Theorem refused_failure_notice_aborts_batch :
  let out := LambdaFunction.lambda_handler sns_down
               (event_of [record_of "src" "missing.png";
                          record_of "src" "source/photo.png"]) [] in
  (exists t, snd out
             = Ok (Response 500 (error_body (exn_str SnsDown) t)))
  /\ fetches (fst out) = [GetObject "src" "missing.png"]
  /\ uploads (fst out) = []
  /\ subjects (fst out)
     = [ErrorProcessingImage (JStr "missing.png"); CriticalLambdaFunctionError].
Proof.
  split; [eexists; reflexivity|]. now repeat split.
Qed.

(** C5 fails on these inputs: one well-formed record whose image is
    fetched, resized and uploaded.  With SNS down the refused
    notifications turn the response from 200 into 500; with SNS refusing
    only the success notification the record, although uploaded, is
    reported as failed. *)
Theorem refused_notification_is_escalated :
  let event := event_of [record_of "src" "source/photo.png"] in
  let up := LambdaFunction.lambda_handler sns_up event [] in
  let down := LambdaFunction.lambda_handler sns_down event [] in
  let partial := LambdaFunction.lambda_handler sns_refuses_success event [] in
  (exists t, snd up = Ok (Response 200 (ok_body 1 t)))
  /\ subjects (fst up) = [ThumbnailGenerated "photo.png"]
  /\ (exists t, snd down = Ok (Response 500 (error_body (exn_str SnsDown) t)))
  /\ length (uploads (fst down)) = 1%nat
  /\ subjects (fst down)
     = [ThumbnailGenerated "photo.png";
        ErrorProcessingImage (JStr "source/photo.png");
        CriticalLambdaFunctionError]
  /\ (exists t, snd partial = Ok (Response 200 (ok_body 1 t)))
  /\ length (uploads (fst partial)) = 1%nat
  /\ subjects (fst partial)
     = [ThumbnailGenerated "photo.png";
        ErrorProcessingImage (JStr "source/photo.png")].
Proof.
  repeat split; try (eexists; vm_compute; reflexivity); vm_compute; reflexivity.
Qed.

End HandlerClaims.

(* ================================================================== *)
(** * Facts about the image transformer *)

Section Float64Facts.
Import Properties Float64.

(** Rounding to the nearest integer is off by half a unit at most. *)
Lemma rne_near (num den : Z) :
  0 < den -> Z.abs (2 * (rne num den * den - num)) <= den.
Proof.
  intros Hd. unfold rne.
  pose proof (Z.div_mod num den ltac:(lia)) as E.
  pose proof (Z.mod_pos_bound num den Hd) as B.
  set (q := num / den) in *. set (r := num mod den) in *.
  destruct (Z.compare_spec (2 * r) den) as [C|C|C].
  - destruct (Z.even q); nia.
  - nia.
  - nia.
Qed.

(** The two scale factors of an exponent [e = u - v]. *)
Lemma scale_factors (e u v : Z) :
  0 <= u -> 0 <= v -> e = u - v ->
  2 ^ Z.max 0 (- e) * 2 ^ u = 2 ^ Z.max 0 e * 2 ^ v.
Proof.
  intros Hu Hv ->. rewrite <- !Z.pow_add_r by lia. f_equal. lia.
Qed.

(** [round_pos n d] is a significand [m] times a power of two, and
    differs from [n / d] by at most [2^-53] of it. *)
Lemma round_pos_scaled (n d : Z) :
  0 < n -> 0 < d ->
  exists m A B,
    0 < A /\ 0 < B /\ 0 < m
    /\ round_pos n d = (inject_Z (m * B) / inject_Z A)%Q
    /\ Z.abs (m * B * d - n * A) * 2 ^ 53 <= n * A.
Proof.
  intros Hn Hd. unfold round_pos.
  pose proof (Z.log2_spec n Hn) as Ln. pose proof (Z.log2_spec d Hd) as Ld.
  pose proof (Z.log2_nonneg n) as Ln0. pose proof (Z.log2_nonneg d) as Ld0.
  set (e0 := Z.log2 n - Z.log2 d - 52).
  pose proof (scale_factors e0 (Z.log2 n) (Z.log2 d + 52)
                ltac:(lia) ltac:(lia) ltac:(subst e0; lia)) as S0.
  pose proof (scale_factors (e0 - 1) (Z.log2 n) (Z.log2 d + 53)
                ltac:(lia) ltac:(lia) ltac:(subst e0; lia)) as S1.
  rewrite Z.pow_add_r in S0, S1 by lia.
  replace (Z.succ (Z.log2 n)) with (Z.log2 n + 1) in Ln by lia.
  replace (Z.succ (Z.log2 d)) with (Z.log2 d + 1) in Ld by lia.
  rewrite Z.pow_add_r in Ln, Ld by lia. change (2 ^ 1) with 2 in Ln, Ld.
  assert (P0 : 0 < 2 ^ Z.max 0 (- e0)) by (apply Z.pow_pos_nonneg; lia).
  assert (Q0 : 0 < 2 ^ Z.max 0 e0) by (apply Z.pow_pos_nonneg; lia).
  assert (P1 : 0 < 2 ^ Z.max 0 (- (e0 - 1))) by (apply Z.pow_pos_nonneg; lia).
  assert (Q1 : 0 < 2 ^ Z.max 0 (e0 - 1)) by (apply Z.pow_pos_nonneg; lia).
  assert (Pn : 0 < 2 ^ Z.log2 n) by (apply Z.pow_pos_nonneg; lia).
  assert (Pd : 0 < 2 ^ Z.log2 d) by (apply Z.pow_pos_nonneg; lia).
  change (2 ^ 53) with (2 ^ 52 * 2) in S1.
  set (A0 := 2 ^ Z.max 0 (- e0)) in *. set (B0 := 2 ^ Z.max 0 e0) in *.
  set (A1 := 2 ^ Z.max 0 (- (e0 - 1))) in *.
  set (B1 := 2 ^ Z.max 0 (e0 - 1)) in *.
  set (pn := 2 ^ Z.log2 n) in *. set (pd := 2 ^ Z.log2 d) in *.
  assert (T : 0 < 2 ^ 52) by reflexivity.
  change (2 ^ 53) with (2 ^ 52 * 2).
  set (t := 2 ^ 52) in *.
  destruct (n * A0 <? t * (d * B0)) eqn:C.
  - apply Z.ltb_lt in C.
    assert (G : t * (d * B1) <= n * A1) by nia.
    pose proof (rne_near (n * A1) (d * B1) ltac:(nia)) as R.
    set (m := rne (n * A1) (d * B1)) in *.
    exists m, A1, B1. repeat split; try assumption; try nia.
  - apply Z.ltb_ge in C.
    pose proof (rne_near (n * A0) (d * B0) ltac:(nia)) as R.
    set (m := rne (n * A0) (d * B0)) in *.
    exists m, A0, B0. repeat split; try assumption; try nia.
Qed.


Lemma Qdiv_le_cross (a b c d : Q) :
  (0 < b -> 0 < d -> a * d <= c * b -> a / b <= c / d)%Q.
Proof.
  intros Hb Hd H. apply Qle_shift_div_r; [exact Hb|].
  setoid_replace (c / d * b)%Q with ((c * b) / d)%Q
    by (field; intros E; rewrite E in Hd; discriminate).
  apply Qle_shift_div_l; [exact Hd | exact H].
Qed.

Lemma inject_Z_pos (z : Z) : 0 < z -> (0 < inject_Z z)%Q.
Proof. intros H. unfold Qlt. simpl. lia. Qed.

Lemma inject_Z_nonzero (z : Z) : 0 < z -> ~ (inject_Z z == 0)%Q.
Proof. intros Hz H. unfold Qeq in H. simpl in H. lia. Qed.

(** Rounding a positive quotient moves it by at most the relative
    error [eps = 2^-53], and keeps it positive. *)
Lemma round_pos_near (n d : Z) :
  0 < n -> 0 < d ->
  (inject_Z n / inject_Z d * (1 - eps) <= round_pos n d
   /\ round_pos n d <= inject_Z n / inject_Z d * (1 + eps)
   /\ 0 < round_pos n d)%Q.
Proof.
  intros Hn Hd.
  destruct (round_pos_scaled n d Hn Hd) as (m & A & B & HA & HB & Hm & -> & E).
  pose proof (inject_Z_pos A HA) as QA. pose proof (inject_Z_pos d Hd) as Qd.
  pose proof (inject_Z_pos n Hn) as Qn.
  assert (E1 : n * A * 2 ^ 53 <= n * A + m * B * d * 2 ^ 53) by lia.
  assert (E2 : m * B * d * 2 ^ 53 <= n * A + n * A * 2 ^ 53) by lia.
  rewrite Zle_Qle in E1, E2.
  repeat rewrite ?inject_Z_mult, ?inject_Z_plus in E1, E2.
  change (inject_Z (2 ^ 53)) with (/ eps)%Q in E1, E2.
  assert (Heps : (0 < eps)%Q) by reflexivity.
  set (x := inject_Z (m * B)) in *.
  assert (Ex : (x == inject_Z m * inject_Z B)%Q)
    by (unfold x; now rewrite inject_Z_mult).
  set (qm := inject_Z m) in *. set (qB := inject_Z B) in *.
  set (qA := inject_Z A) in *. set (qn := inject_Z n) in *.
  set (qd := inject_Z d) in *.
  assert (D1 : ~ (qd == 0)%Q) by (intros Z; rewrite Z in Qd; discriminate).
  assert (I : (/ eps == 9007199254740992)%Q) by reflexivity.
  rewrite I in E1, E2.
  split; [|split].
  - setoid_replace (qn / qd * (1 - eps))%Q with ((qn * (1 - eps)) / qd)%Q
      by (field; exact D1).
    apply Qdiv_le_cross; [exact Qd | exact QA |].
    rewrite Ex. unfold eps. nra.
  - setoid_replace (qn / qd * (1 + eps))%Q with ((qn * (1 + eps)) / qd)%Q
      by (field; exact D1).
    apply Qdiv_le_cross; [exact QA | exact Qd |].
    rewrite Ex. unfold eps. nra.
  - apply Qlt_shift_div_l; [exact QA|]. rewrite Qmult_0_l.
    unfold x. apply inject_Z_pos. nia.
Qed.


Lemma round_compat (p q : Q) : (p == q)%Q -> round p = round q.
Proof. intros H. unfold round. now rewrite (Qred_complete p q H). Qed.

Lemma round_zero (q : Q) : (q == 0)%Q -> round q = 0%Q.
Proof. intros H. now rewrite (round_compat q 0 H). Qed.

Lemma Qred_quotient (q : Q) :
  (inject_Z (Qnum (Qred q)) / inject_Z (Zpos (Qden (Qred q))) == q)%Q.
Proof.
  rewrite <- Qmake_Qdiv. destruct (Qred q) as [n d] eqn:E. simpl.
  rewrite <- E. apply Qred_correct.
Qed.

(** Rounding keeps a positive number positive and within the relative
    error [eps] of it. *)
Lemma round_near (q : Q) :
  (0 < q -> q * (1 - eps) <= round q /\ round q <= q * (1 + eps)
            /\ 0 < round q)%Q.
Proof.
  intros Hq. pose proof (Qred_quotient q) as E.
  assert (Hn : 0 < Qnum (Qred q)).
  { rewrite <- (Qred_correct q) in Hq. unfold Qlt in Hq. simpl in Hq. lia. }
  unfold round, round_canonical.
  destruct (Qnum (Qred q)) as [|n|n] eqn:N; try lia.
  pose proof (round_pos_near (Zpos n) (Zpos (Qden (Qred q))) eq_refl eq_refl)
    as P.
  remember (round_pos (Zpos n) (Zpos (Qden (Qred q)))) as r.
  remember (inject_Z (Zpos n) / inject_Z (Zpos (Qden (Qred q))))%Q as u.
  clear - P E. rewrite <- E. exact P.
Qed.

(** Rounding keeps a negative number negative. *)
Lemma round_negative (q : Q) : (q < 0 -> round q < 0)%Q.
Proof.
  intros Hq.
  assert (Hn : Qnum (Qred q) < 0).
  { rewrite <- (Qred_correct q) in Hq. unfold Qlt in Hq. simpl in Hq. lia. }
  unfold round, round_canonical.
  destruct (Qnum (Qred q)) as [|n|n] eqn:N; try lia.
  destruct (round_pos_near (Zpos n) (Zpos (Qden (Qred q))) eq_refl eq_refl)
    as (_ & _ & P).
  lra.
Qed.

Lemma round_one : (round 1 == 1)%Q.
Proof. reflexivity. Qed.

Lemma round_200 : (round (inject_Z 200) == inject_Z 200)%Q.
Proof. reflexivity. Qed.

End Float64Facts.

Section ThumbnailFacts.
Import Py PIL Aws Properties Float64.

(** A quotient of integers with a denominator below [2^31] that lies
    under an integer lies under it by [2^-31] at least. *)
Lemma int_gap_above (k N D : Z) :
  0 < D <= 2 ^ 31 -> N < k * D ->
  (inject_Z N / inject_Z D + gap <= inject_Z k)%Q.
Proof.
  intros HD H.
  assert (H1 : N + 1 <= k * D) by lia.
  assert (H2 : D <= 2147483648) by (change (2 ^ 31) with 2147483648 in HD; lia).
  rewrite Zle_Qle in H1, H2. rewrite inject_Z_plus, inject_Z_mult in H1.
  pose proof (inject_Z_pos D ltac:(lia)) as QD.
  set (qN := inject_Z N) in *. set (qD := inject_Z D) in *.
  set (qk := inject_Z k) in *.
  change (inject_Z 1) with 1%Q in H1.
  change (inject_Z 2147483648) with 2147483648%Q in H2.
  assert (G : (qN / qD <= qk - gap)%Q).
  { apply Qle_shift_div_r; [exact QD|]. unfold gap. nra. }
  lra.
Qed.

Lemma int_gap_below (k N D : Z) :
  0 < D <= 2 ^ 31 -> k * D < N ->
  (inject_Z k + gap <= inject_Z N / inject_Z D)%Q.
Proof.
  intros HD H.
  assert (H1 : k * D + 1 <= N) by lia.
  assert (H2 : D <= 2147483648) by (change (2 ^ 31) with 2147483648 in HD; lia).
  rewrite Zle_Qle in H1, H2. rewrite inject_Z_plus, inject_Z_mult in H1.
  pose proof (inject_Z_pos D ltac:(lia)) as QD.
  set (qN := inject_Z N) in *. set (qD := inject_Z D) in *.
  set (qk := inject_Z k) in *.
  change (inject_Z 1) with 1%Q in H1.
  change (inject_Z 2147483648) with 2147483648%Q in H2.
  apply Qle_shift_div_l; [exact QD|]. unfold gap. nra.
Qed.

(** Floor and ceiling of a float that is close to a quotient [N / D]
    bracket the quotient itself. *)
Lemma bracket (N D : Z) (number : Q) :
  0 < D <= 2 ^ 31 ->
  (inject_Z N / inject_Z D - tiny <= number)%Q ->
  (number <= inject_Z N / inject_Z D + tiny)%Q ->
  Qfloor number * D <= N
  /\ N <= Qceiling number * D
  /\ Qceiling number <= Qfloor number + 1
  /\ forall B, N < B * D -> Qceiling number <= B.
Proof.
  intros HD Lo Hi.
  pose proof (Qfloor_le number) as F1. pose proof (Qlt_floor number) as F2.
  pose proof (Qle_ceiling number) as C1. pose proof (Qceiling_lt number) as C2.
  assert (T : (tiny < gap)%Q) by reflexivity.
  split; [|split; [|split]].
  - destruct (Z.le_gt_cases (Qfloor number * D) N) as [|G]; [assumption|].
    pose proof (int_gap_above _ _ _ HD G). lra.
  - destruct (Z.le_gt_cases N (Qceiling number * D)) as [|G]; [assumption|].
    pose proof (int_gap_below _ _ _ HD G). lra.
  - assert (X : (inject_Z (Qceiling number - 1) < inject_Z (Qfloor number + 1))%Q)
      by lra.
    rewrite <- Zlt_Qlt in X. lia.
  - intros B HB. pose proof (int_gap_above _ _ _ HD HB) as G.
    rewrite <- (Qceiling_Z B). apply Qceiling_resp_le. lra.
Qed.

(** What [round_aspect] returns for a float close to [N / D], when the
    key vanishes at an integer value of [N / D] and is positive just
    below it: an integer within one unit of [N / D], at least 1, and under
    every integer bound of [N / D]. *)
Lemma round_aspect_close (number : Q) (key : Z -> Q) (N D : Z) :
  0 < N -> 0 < D <= 2 ^ 31 ->
  (inject_Z N / inject_Z D - tiny <= number)%Q ->
  (number <= inject_Z N / inject_Z D + tiny)%Q ->
  (0 < number)%Q ->
  N < 200 * D ->
  (forall n, 0 <= key n)%Q ->
  (forall k, 0 <= k -> N = k * D -> (key k == 0)%Q) ->
  (forall k, 1 <= k <= 198 -> N = (k + 1) * D -> (0 < key k)%Q) ->
  1 <= round_aspect number key
  /\ Z.abs (round_aspect number key * D - N) < D
  /\ forall B, 1 <= B -> N < B * D -> round_aspect number key <= B.
Proof.
  intros HN HD Lo Hi Hpos H200 Knn Kz Kp.
  destruct (bracket N D number HD Lo Hi) as (Bf & Bc & Bfc & Bup).
  assert (F0 : 0 <= Qfloor number).
  { rewrite <- (Qfloor_Z 0). apply Qfloor_resp_le. now apply Qlt_le_weak. }
  pose proof (Qle_floor_ceiling number) as Lfc. rewrite <- Zle_Qle in Lfc.
  unfold round_aspect, min_by_key.
  set (f := Qfloor number) in *. set (c := Qceiling number) in *.
  destruct (Qle_bool (key f) (key c)) eqn:E.
  - (* the floor is chosen *)
    assert (Hf : N < (f + 1) * D \/ N = (f + 1) * D) by nia.
    destruct Hf as [Hf|Hf].
    + split; [lia|]. split; [nia|]. intros B HB1 HB.
      pose proof (Bup B HB). lia.
    + (* the quotient is the ceiling: the floor is chosen only when 0 *)
      assert (Hc : c = f + 1) by nia.
      destruct (Z.eq_dec f 0) as [->|Hf0].
      * split; [lia|]. split; [nia|]. intros B HB1 HB. lia.
      * exfalso. apply Qle_bool_iff in E.
        pose proof (Kz c ltac:(lia) ltac:(nia)) as Z0.
        pose proof (Kp f ltac:(nia) Hf). lra.
  - (* the ceiling is chosen *)
    assert (E' : ~ (key f <= key c)%Q).
    { intros X. apply Qle_bool_iff in X. congruence. }
    assert (Hf : f * D < N).
    { destruct (Z.eq_dec (f * D) N) as [X|X]; [|lia].
      exfalso. apply E'. rewrite (Kz f F0 (eq_sym X)). apply Knn. }
    split; [lia|]. split; [nia|]. intros B HB1 HB.
    pose proof (Bup B HB). lia.
Qed.

(** Two quotients of integers with equal cross products. *)
Lemma quotient_eq (a b c d : Z) :
  0 < b -> 0 < d -> a * d = c * b ->
  (inject_Z a / inject_Z b == inject_Z c / inject_Z d)%Q.
Proof.
  intros Hb Hd E.
  assert (E' : (inject_Z a * inject_Z d == inject_Z c * inject_Z b)%Q)
    by (rewrite <- !inject_Z_mult; now rewrite E).
  pose proof (inject_Z_nonzero b Hb). pose proof (inject_Z_nonzero d Hd).
  apply (Qmult_inj_r _ _ (inject_Z b * inject_Z d)).
  { intros X. apply Qmult_integral in X. tauto. }
  transitivity (inject_Z a * inject_Z d)%Q; [field; assumption|].
  rewrite E'. field; assumption.
Qed.

(** The key of [round_aspect] vanishes where the two ratios are the same
    float. *)
Lemma sub_same (a b : Q) : a = b -> (Qabs (sub a b) == 0)%Q.
Proof.
  intros ->. unfold sub. rewrite (round_zero (b - b)) by ring. reflexivity.
Qed.

Lemma upto198_In (k : Z) : 1 <= k <= 198 -> In k upto198.
Proof.
  intros Hk. unfold upto198. rewrite <- (Z2Nat.id k) by lia.
  apply in_map, in_seq. lia.
Qed.

(** The keys of the two sides, at the first 198 integers just below an
    integer ratio. *)
Lemma width_key_below :
  forallb (fun k => negb (Qle_bool
                     (Qabs (sub (div_int (k + 1) 200) (div_int k 200))) 0))
          upto198 = true.
Proof. vm_compute. reflexivity. Qed.

Lemma height_key_below :
  forallb (fun k => negb (Qle_bool
                     (Qabs (sub (div_int 200 (k + 1)) (div_int 200 k))) 0))
          upto198 = true.
Proof. vm_compute. reflexivity. Qed.

Lemma aspect_near (W H : Z) :
  0 < W -> 0 < H ->
  (inject_Z W / inject_Z H * (1 - eps) <= div_int W H
   /\ div_int W H <= inject_Z W / inject_Z H * (1 + eps)
   /\ 0 < div_int W H)%Q.
Proof.
  intros HW HH. apply round_near.
  apply Qlt_shift_div_l; [now apply inject_Z_pos|].
  rewrite Qmult_0_l. now apply inject_Z_pos.
Qed.

Lemma box_ratio : (div_int 200 200 == 1)%Q.
Proof. reflexivity. Qed.

Lemma div_int_same (W : Z) : 0 < W -> div_int W W = round 1.
Proof.
  intros HW. apply round_compat. field. now apply inject_Z_nonzero.
Qed.

(** [x / y >= aspect] for the 200x200 box: the image is at least as
    high as it is wide. *)
Lemma box_aspect_test (W H : Z) :
  0 < W -> 0 < H <= 2 ^ 31 ->
  Qle_bool (div_int W H) (div_int 200 200) = (W <=? H).
Proof.
  intros HW HH. apply eq_true_iff_eq. rewrite Qle_bool_iff, Z.leb_le.
  rewrite box_ratio.
  destruct (aspect_near W H HW ltac:(lia)) as (Lo & Hi & _).
  assert (Hu : (0 < inject_Z W / inject_Z H)%Q).
  { apply Qlt_shift_div_l; [apply inject_Z_pos; lia|].
    rewrite Qmult_0_l. now apply inject_Z_pos. }
  set (u := (inject_Z W / inject_Z H)%Q) in *.
  split.
  - intros Hle. destruct (Z.le_gt_cases W H) as [|G]; [assumption|exfalso].
    pose proof (int_gap_below 1 W H HH ltac:(lia)) as B.
    fold u in B. change (inject_Z 1) with 1%Q in B.
    unfold eps, gap in *. lra.
  - intros Hle. destruct (Z.eq_dec W H) as [->|N].
    + rewrite (div_int_same H) by lia. rewrite round_one. apply Qle_refl.
    + pose proof (int_gap_above 1 W H HH ltac:(lia)) as B.
      fold u in B. change (inject_Z 1) with 1%Q in B.
      unfold eps, gap in *. lra.
Qed.

(** The new width of an image higher than wide and higher than the box. *)
Lemma round_aspect_width (W H : Z) :
  0 < W -> W < H -> 200 < H -> H <= 2 ^ 31 ->
  let r := round_aspect (mul (of_int 200) (div_int W H))
             (fun n => Qabs (sub (div_int W H) (div_int n 200))) in
  1 <= r <= 200 /\ r <= W /\ Z.abs (r * H - 200 * W) < H.
Proof.
  intros HW HWH H200 Hmax r.
  destruct (aspect_near W H HW ltac:(lia)) as (Lo & Hi & Pa).
  pose proof (int_gap_above 1 W H ltac:(lia) ltac:(lia)) as B.
  change (inject_Z 1) with 1%Q in B.
  assert (Hu : (0 < inject_Z W / inject_Z H)%Q).
  { apply Qlt_shift_div_l; [apply inject_Z_pos; lia|].
    rewrite Qmult_0_l. now apply inject_Z_pos. }
  assert (Eq : (inject_Z (200 * W) / inject_Z H
                == 200 * (inject_Z W / inject_Z H))%Q).
  { rewrite inject_Z_mult. change (inject_Z 200) with 200%Q.
    field. apply inject_Z_nonzero. lia. }
  assert (En : mul (of_int 200) (div_int W H) = round (200 * div_int W H)).
  { apply round_compat. unfold of_int. now rewrite round_200. }
  destruct (round_near (200 * div_int W H)%Q ltac:(lra)) as (Nlo & Nhi & Np).
  rewrite <- En in Nlo, Nhi, Np.
  destruct (round_aspect_close (mul (of_int 200) (div_int W H))
              (fun n => Qabs (sub (div_int W H) (div_int n 200)))
              (200 * W) H) as (R1 & R2 & R3).
  - lia.
  - lia.
  - rewrite Eq. unfold eps, gap, tiny in *. lra.
  - rewrite Eq. unfold eps, gap, tiny in *. lra.
  - exact Np.
  - lia.
  - intros n. apply Qabs_nonneg.
  - intros k Hk E. apply sub_same. apply round_compat.
    apply quotient_eq; lia.
  - intros k Hk E.
    assert (Ea : div_int W H = div_int (k + 1) 200).
    { apply round_compat. apply quotient_eq; lia. }
    rewrite Ea.
    pose proof width_key_below as F. rewrite forallb_forall in F.
    specialize (F k (upto198_In k Hk)). apply negb_true_iff in F.
    destruct (Qlt_le_dec 0 (Qabs (sub (div_int (k + 1) 200) (div_int k 200))))
      as [|L]; [assumption|].
    apply Qle_bool_iff in L. congruence.
  - fold r in R1, R2, R3.
    pose proof (R3 200 ltac:(lia) ltac:(lia)).
    pose proof (R3 W ltac:(lia) ltac:(nia)). lia.
Qed.

(** The new width of a square image larger than the box. *)
Lemma round_aspect_square (W : Z) :
  0 < W ->
  round_aspect (mul (of_int 200) (div_int W W))
    (fun n => Qabs (sub (div_int W W) (div_int n 200))) = 200.
Proof. intros HW. rewrite (div_int_same W HW). vm_compute. reflexivity. Qed.

(** The new height of an image wider than high and wider than the box. *)
Lemma round_aspect_height (W H : Z) :
  0 < H -> H < W -> 200 < W -> W <= 2 ^ 31 ->
  let r := round_aspect (div (of_int 200) (div_int W H))
             (fun n => if n =? 0 then 0%Q
                       else Qabs (sub (div_int W H) (div_int 200 n))) in
  1 <= r <= 200 /\ r <= H /\ Z.abs (r * W - 200 * H) < W.
Proof.
  intros HH HWH H200 Hmax r.
  destruct (aspect_near W H ltac:(lia) HH) as (Lo & Hi & Pa).
  assert (Hu : (0 < inject_Z W / inject_Z H)%Q).
  { apply Qlt_shift_div_l; [apply inject_Z_pos; lia|].
    rewrite Qmult_0_l. apply inject_Z_pos. lia. }
  pose proof (int_gap_above 200 (200 * H) W ltac:(lia) ltac:(lia)) as B.
  change (inject_Z 200) with 200%Q in B.
  assert (Eq : (inject_Z (200 * H) / inject_Z W
                == 200 / (inject_Z W / inject_Z H))%Q).
  { rewrite inject_Z_mult. change (inject_Z 200) with 200%Q.
    field. split; apply inject_Z_nonzero; lia. }
  assert (Pq : (0 < inject_Z (200 * H) / inject_Z W)%Q).
  { apply Qlt_shift_div_l; [apply inject_Z_pos; lia|].
    rewrite Qmult_0_l. apply inject_Z_pos. lia. }
  assert (En : div (of_int 200) (div_int W H) = round (200 / div_int W H)).
  { apply round_compat. unfold of_int. now rewrite round_200. }
  assert (Pz : (0 < 200 / div_int W H)%Q).
  { apply Qlt_shift_div_l; [exact Pa|]. lra. }
  destruct (round_near (200 / div_int W H)%Q Pz) as (Nlo & Nhi & Np).
  rewrite <- En in Nlo, Nhi, Np.
  (* the exact quotient against the quotient by the rounded aspect *)
  assert (Za : (200 / div_int W H * div_int W H == 200)%Q).
  { field. lra. }
  assert (Qu : (inject_Z (200 * H) / inject_Z W
                * (inject_Z W / inject_Z H) == 200)%Q).
  { rewrite inject_Z_mult. change (inject_Z 200) with 200%Q.
    field. split; apply inject_Z_nonzero; lia. }
  set (u := (inject_Z W / inject_Z H)%Q) in *.
  set (a := div_int W H) in *.
  set (q := (inject_Z (200 * H) / inject_Z W)%Q) in *.
  set (z := (200 / a)%Q) in *.
  set (number := div (of_int 200) a) in *.
  assert (Q1 : (z * (1 - eps) <= q)%Q).
  { unfold eps in *. nra. }
  assert (Q2 : (q <= z * (1 + eps))%Q).
  { unfold eps in *. nra. }
  destruct (round_aspect_close number
              (fun n => if n =? 0 then 0%Q
                        else Qabs (sub a (div_int 200 n)))
              (200 * H) W) as (R1 & R2 & R3).
  - lia.
  - lia.
  - fold q. unfold eps, gap, tiny in *. lra.
  - fold q. unfold eps, gap, tiny in *. lra.
  - exact Np.
  - lia.
  - intros n. destruct (n =? 0); [apply Qle_refl | apply Qabs_nonneg].
  - intros k Hk E.
    replace (k =? 0) with false by (symmetry; apply Z.eqb_neq; nia).
    apply sub_same. apply round_compat. apply quotient_eq; lia.
  - intros k Hk E.
    replace (k =? 0) with false by (symmetry; apply Z.eqb_neq; lia).
    assert (Ea : a = div_int 200 (k + 1)).
    { apply round_compat. apply quotient_eq; lia. }
    rewrite Ea.
    pose proof height_key_below as F. rewrite forallb_forall in F.
    specialize (F k (upto198_In k Hk)). apply negb_true_iff in F.
    destruct (Qlt_le_dec 0 (Qabs (sub (div_int 200 (k + 1)) (div_int 200 k))))
      as [|L]; [assumption|].
    apply Qle_bool_iff in L. congruence.
  - fold r in R1, R2, R3.
    pose proof (R3 200 ltac:(lia) ltac:(lia)).
    pose proof (R3 H ltac:(lia) ltac:(nia)). lia.
Qed.

(** The size [Image.thumbnail] settles on for the 200x200 box; the sides
    of an image are C [int]s. *)
Lemma preserve_aspect_ratio_box (im : image) :
  0 < width im < 2 ^ 31 -> 0 < height im < 2 ^ 31 ->
  (width im <= 200 /\ height im <= 200
   /\ preserve_aspect_ratio 200 200 im = Ok None)
  \/ exists x y,
      preserve_aspect_ratio 200 200 im = Ok (Some (x, y))
      /\ (200 < width im \/ 200 < height im)
      /\ 1 <= x <= 200 /\ 1 <= y <= 200
      /\ x <= width im /\ y <= height im
      /\ ((y = 200 /\ Z.abs (x * height im - 200 * width im) < height im)
          \/ (x = 200 /\ Z.abs (y * width im - 200 * height im) < width im)).
Proof.
  intros HW HH. unfold preserve_aspect_ratio.
  destruct ((width im <=? 200) && (height im <=? 200)) eqn:E.
  { left. apply andb_true_iff in E. destruct E as [E1 E2].
    apply Z.leb_le in E1, E2. now repeat split. }
  right. apply andb_false_iff in E.
  assert (Hbig : 200 < width im \/ 200 < height im).
  { destruct E as [E|E]; apply Z.leb_gt in E; lia. }
  replace (height im =? 0) with false by (symmetry; apply Z.eqb_neq; lia).
  change (200 =? 0) with false. cbv iota.
  rewrite (box_aspect_test (width im) (height im)) by lia.
  destruct (width im <=? height im) eqn:A.
  - apply Z.leb_le in A.
    destruct (Z.eq_dec (width im) (height im)) as [S|S].
    + rewrite <- S in Hbig |- *.
      rewrite (round_aspect_square (width im)) by lia.
      exists 200, 200. split; [reflexivity|]. split; [exact Hbig|].
      split; [lia|]. split; [lia|]. split; [lia|]. split; [lia|].
      left. split; [reflexivity|]. lia.
    + destruct (round_aspect_width (width im) (height im))
        as (H1 & H2 & H3); try lia.
      eexists. eexists. split; [reflexivity|]. split; [exact Hbig|].
      split; [lia|]. split; [lia|]. split; [lia|]. split; [lia|].
      left. split; [reflexivity | exact H3].
  - apply Z.leb_gt in A.
    destruct (aspect_near (width im) (height im)) as (_ & _ & Pa); try lia.
    replace (Qeq_bool (div_int (width im) (height im)) 0) with false.
    2:{ symmetry. apply not_true_is_false. intros X.
        apply Qeq_bool_iff in X. rewrite X in Pa. discriminate Pa. }
    destruct (round_aspect_height (width im) (height im))
      as (H1 & H2 & H3); try lia.
    eexists. eexists. split; [reflexivity|]. split; [exact Hbig|].
    split; [lia|]. split; [lia|]. split; [lia|]. split; [lia|].
    right. split; [reflexivity | exact H3].
Qed.

End ThumbnailFacts.

Section TraceFacts.
Import Py PIL Aws Properties.

Lemma subjects_app (a b : trace) :
  subjects (a ++ b)%list = (subjects a ++ subjects b)%list.
Proof.
  induction a as [|e a IH]; [reflexivity|].
  destruct e; simpl; now rewrite IH.
Qed.

Lemma fetches_app (a b : trace) :
  fetches (a ++ b)%list = (fetches a ++ fetches b)%list.
Proof. apply filter_app. Qed.

Lemma uploads_app (a b : trace) :
  uploads (a ++ b)%list = (uploads a ++ uploads b)%list.
Proof. apply filter_app. Qed.

Lemma notifications_app (a b : trace) :
  notifications (a ++ b)%list = (notifications a ++ notifications b)%list.
Proof. apply filter_app. Qed.

End TraceFacts.

Section NormalizeFacts.
Import Py PIL Aws Properties LambdaFunction.

Lemma normalize_opaque (im : image) :
  existsb (String.eqb (mode im)) ["RGBA"; "LA"; "P"] = false ->
  normalize im = im.
Proof. intros H. unfold normalize. now rewrite H. Qed.

Lemma normalize_size (im : image) :
  width (normalize im) = width im /\ height (normalize im) = height im.
Proof.
  unfold normalize. destruct (existsb _ _); [|now split].
  now destruct (String.eqb (mode _) "RGBA").
Qed.

Lemma normalize_mode (im : image) :
  existsb (String.eqb (mode im)) ["RGBA"; "LA"; "P"] = true ->
  mode (normalize im) = "RGB".
Proof.
  intros H. unfold normalize. rewrite H.
  now destruct (String.eqb (mode _) "RGBA").
Qed.

Lemma paste_mask_L_nth (m : string) (out inp : list pixel) (i : nat) (o px : pixel) :
  nth_error out i = Some o -> nth_error inp i = Some px ->
  nth_error (paste_mask_L out m inp (map (fun p => [last p 0]) inp)) i
  = Some (firstn 3 (blend_bytes (last px 0) (storage "RGB" o) (storage m px))).
Proof.
  revert inp i. induction out as [|o' out IH]; intros [|p inp] [|i]; simpl;
    try discriminate.
  - now intros [= ->] [= ->].
  - apply IH.
Qed.

Lemma paste_plain_nth (m : string) (out inp : list pixel) (i : nat) (o px : pixel) :
  nth_error out i = Some o -> nth_error inp i = Some px ->
  nth_error (paste_plain out m inp) i = Some (firstn 3 (storage m px)).
Proof.
  revert inp i. induction out as [|o' out IH]; intros [|p inp] [|i]; simpl;
    try discriminate.
  - now intros _ [= ->].
  - apply IH.
Qed.

Lemma background_nth (im : image) (i : nat) :
  (i < Z.to_nat (width im * height im))%nat ->
  nth_error (data (PIL.new "RGB" (size im) white)) i = Some white.
Proof. intros H. simpl. now apply nth_error_repeat. Qed.

(** A fully transparent pixel of an [RGBA] image comes out white. *)
Lemma normalize_RGBA_transparent (im : image) (i : nat) (r g b : Z) :
  mode im = "RGBA" ->
  (i < Z.to_nat (width im * height im))%nat ->
  nth_error (data im) i = Some [r; g; b; 0] ->
  nth_error (data (normalize im)) i = Some white.
Proof.
  intros Hm Hi Hp.
  assert (E : data (normalize im)
              = paste_mask_L (data (PIL.new "RGB" (size im) white)) "RGBA"
                             (data im) (map (fun p => [last p 0]) (data im))).
  { unfold normalize. rewrite Hm. simpl. rewrite ?Hm. simpl. now rewrite ?Hm. }
  rewrite E, (paste_mask_L_nth "RGBA" _ _ i white [r; g; b; 0]
                (background_nth im i Hi) Hp).
  simpl. unfold BLEND8. now rewrite !Z.mul_0_r.
Qed.

(** A pixel of a palette image whose palette entry is fully transparent
    comes out white. *)
Lemma normalize_P_transparent (im : image) (i : nat) (index r g b : Z) :
  mode im = "P" ->
  (i < Z.to_nat (width im * height im))%nat ->
  nth_error (data im) i = Some [index] ->
  nth_error (palette im) (Z.to_nat index) = Some [r; g; b; 0] ->
  nth_error (data (normalize im)) i = Some white.
Proof.
  intros Hm Hi Hp Hc.
  assert (E : data (normalize im)
              = paste_mask_L (data (PIL.new "RGB" (size im) white)) "RGBA"
                             (data (convert_RGBA im))
                             (map (fun p => [last p 0]) (data (convert_RGBA im)))).
  { unfold normalize. rewrite Hm. simpl. rewrite ?Hm. simpl. now rewrite ?Hm. }
  assert (Hq : nth_error (data (convert_RGBA im)) i = Some [r; g; b; 0]).
  { unfold convert_RGBA. cbn [data]. unfold pixel in *.
    rewrite nth_error_map, Hp.
    cbn [option_map hd]. now rewrite (nth_error_nth _ _ _ Hc). }
  rewrite E, (paste_mask_L_nth "RGBA" _ _ i white [r; g; b; 0]
                (background_nth im i Hi) Hq).
  simpl. unfold BLEND8. now rewrite !Z.mul_0_r.
Qed.

(** A pixel of an [LA] image comes out as its grey value, whatever its
    alpha: the paste has no mask. *)
Lemma normalize_LA_ignores_alpha (im : image) (i : nat) (l a : Z) :
  mode im = "LA" ->
  (i < Z.to_nat (width im * height im))%nat ->
  nth_error (data im) i = Some [l; a] ->
  nth_error (data (normalize im)) i = Some [l; l; l].
Proof.
  intros Hm Hi Hp.
  assert (E : data (normalize im)
              = paste_plain (data (PIL.new "RGB" (size im) white)) "LA" (data im)).
  { unfold normalize. rewrite Hm. simpl. rewrite ?Hm. simpl. now rewrite ?Hm. }
  now rewrite E, (paste_plain_nth "LA" _ _ i white [l; a]
                    (background_nth im i Hi) Hp).
Qed.

(** What [thumbnail] returns for the 200x200 box. *)
Lemma thumbnail_box (resample : image -> Z * Z -> list pixel) (src : image) :
  0 < width src < 2 ^ 31 -> 0 < height src < 2 ^ 31 ->
  exists im',
    thumbnail resample (200, 200) src = Ok im'
    /\ 1 <= width im' <= 200 /\ 1 <= height im' <= 200
    /\ width im' <= width src /\ height im' <= height src
    /\ (width src <= 200 -> height src <= 200 -> im' = src)
    /\ (size im' = size src
        \/ (height im' = 200
            /\ Z.abs (width im' * height src - 200 * width src) < height src)
        \/ (width im' = 200
            /\ Z.abs (height im' * width src - 200 * height src) < width src))
    /\ mode im' = mode src.
Proof.
  intros HW HH. unfold thumbnail. simpl fst. simpl snd.
  destruct (preserve_aspect_ratio_box src HW HH)
    as [(H1 & H2 & ->) | (x & y & -> & Hbig & Hx & Hy & HxW & HyH & Hr)].
  - exists src. repeat split; try lia. now left.
  - simpl fst. simpl snd.
    destruct ((x =? width src) && (y =? height src)) eqn:E.
    + apply andb_true_iff in E. destruct E as [E1 E2].
      apply Z.eqb_eq in E1, E2. lia.
    + eexists. split; [reflexivity|]. simpl.
      repeat split; try lia. right. exact Hr.
Qed.

End NormalizeFacts.

(* ================================================================== *)
(** * The run of one record *)

Ltac flat := repeat rewrite <- app_assoc; cbn [app].

Ltac calls :=
  repeat rewrite ?fetches_app, ?uploads_app, ?notifications_app, ?subjects_app;
  simpl; rewrite ?app_nil_r.

Section RunFacts.
Import Py PIL Aws Properties Scenario.

Lemma thumbnail_mode (rs : image -> Z * Z -> list pixel) (sz : Z * Z)
      (im im' : image) :
  thumbnail rs sz im = Ok im' -> mode im' = mode im.
Proof.
  unfold thumbnail.
  destruct (preserve_aspect_ratio _ _ im) as [[final|]|]; try discriminate.
  - destruct (_ && _); now intros [= <-].
  - now intros [= <-].
Qed.

Lemma thumbnail_format (rs : image -> Z * Z -> list pixel) (sz : Z * Z)
      (im im' : image) :
  thumbnail rs sz im = Ok im' -> format im' = format im.
Proof.
  unfold thumbnail.
  destruct (preserve_aspect_ratio _ _ im) as [[final|]|]; try discriminate.
  - destruct (_ && _); now intros [= <-].
  - now intros [= <-].
Qed.

(** After the normalisation an image is in none of the modes the step
    handles. *)
Lemma normalized_mode (im : image) :
  existsb (String.eqb (mode (LambdaFunction.normalize im))) ["RGBA"; "LA"; "P"]
  = false.
Proof.
  destruct (existsb (String.eqb (mode im)) ["RGBA"; "LA"; "P"]) eqn:E.
  - now rewrite (normalize_mode im E).
  - now rewrite (normalize_opaque im E).
Qed.

(** After normalisation and resizing, [save] goes straight to the
    encoder. *)
Lemma save_normalized (w : world) (im im' : image) (quality : Z)
      (optimize : bool) :
  existsb (String.eqb (mode im)) ["RGBA"; "LA"; "P"] = true
  \/ jpeg_rawmode (mode im) = true ->
  thumbnail (resample_filter w) LambdaFunction.THUMBNAIL_SIZE
            (LambdaFunction.normalize im) = Ok im' ->
  jpeg_rawmode (mode im') = true
  /\ save_jpeg w im' quality optimize = jpeg_encoder w im' quality optimize.
Proof.
  intros Hm Ht.
  assert (X : jpeg_rawmode (mode im') = true).
  { rewrite (thumbnail_mode _ _ _ _ Ht).
    destruct (existsb (String.eqb (mode im)) ["RGBA"; "LA"; "P"]) eqn:E.
    - now rewrite (normalize_mode im E).
    - rewrite (normalize_opaque im E). destruct Hm as [Hm|Hm]; [discriminate|].
      exact Hm. }
  split; [exact X|]. unfold save_jpeg. now rewrite X.
Qed.

(** The run of the full handler's [try] body on a well-formed record
    whose object is fetched and decoded and whose image is resized: what
    follows is decided by the encoder's, S3's and SNS's answers. *)
Lemma process_record_run (w : world) (bucket key : string) (tr : trace)
      (image_data : bytes) (im im' : image) :
  s3_get_object w (tr ++ [Log INFO "Processing image"])%list bucket key
  = Ok image_data ->
  Image_open w image_data = Ok im ->
  thumbnail (resample_filter w) LambdaFunction.THUMBNAIL_SIZE
            (LambdaFunction.normalize im) = Ok im' ->
  LambdaFunction.process_record w (record_of bucket key) tr
  = let encoded :=
      (tr ++ [Log INFO "Processing image"; GetObject bucket key;
              Log INFO "Downloaded image size";
              Log INFO "Original image format";
              Log INFO "Thumbnail generated"])%list in
    match save_jpeg w im' LambdaFunction.THUMBNAIL_QUALITY true with
    | Raise e => (encoded, Raise e)
    | Ok buf =>
        let pre := (encoded ++ [Log INFO "Uploading thumbnail to"])%list in
        let put :=
          PutObject (THUMBNAIL_BUCKET w) (KeyDeriver.thumbnail_key key) buf
                    "image/jpeg"
                    [("original-image", key); ("source-bucket", bucket);
                     ("generated-by", "Lambda-ThumbnailGenerator");
                     ("generation-time", datetime_now w pre)] in
        match s3_put_object w pre (THUMBNAIL_BUCKET w)
                            (KeyDeriver.thumbnail_key key) buf with
        | Raise e => ((pre ++ [put])%list, Raise e)
        | Ok _ =>
            let uploaded :=
              (pre ++ [put; Log INFO "Thumbnail uploaded successfully"])%list in
            let subject := ThumbnailGenerated (PosixPath.basename key) in
            let notice :=
              SuccessMessage key bucket (Z.of_nat (length image_data))
                             (format im') (KeyDeriver.thumbnail_key key)
                             (THUMBNAIL_BUCKET w)
                             (LambdaFunction.thumbnail_size_text buf)
                             LambdaFunction.THUMBNAIL_SIZE
                             LambdaFunction.THUMBNAIL_QUALITY
                             (datetime_now w uploaded) in
            match sns_publish w uploaded (SNS_TOPIC_ARN w) subject notice with
            | Raise e =>
                ((uploaded ++ [Publish (SNS_TOPIC_ARN w) subject notice])%list,
                 Raise e)
            | Ok _ =>
                ((uploaded ++ [Publish (SNS_TOPIC_ARN w) subject notice;
                               Log INFO "Success notification sent via SNS"])%list,
                 Ok tt)
            end
        end
    end.
Proof.
  intros Hg Ho Ht.
  unfold LambdaFunction.process_record, get_object, put_object, publish.
  unfold bind, lift, log, call, now. simpl. rewrite Hg, Ho, Ht.
  destruct (save_jpeg w im' LambdaFunction.THUMBNAIL_QUALITY true) as [buf|e];
    [|flat; reflexivity].
  flat.
  destruct (s3_put_object w _ _ _ _) as [[]|e]; [|flat; reflexivity].
  destruct (sns_publish w _ _ _ _) as [[]|e]; flat; reflexivity.
Qed.

(** The same for the reduced handler's loop body. *)
Lemma lamcode_process_record_run (w : world) (bucket key : string) (tr : trace)
      (image_data : bytes) (im im' : image) :
  s3_get_object w (tr ++ [Log INFO "Processing image"])%list bucket key
  = Ok image_data ->
  Image_open w image_data = Ok im ->
  thumbnail (resample_filter w) Lamcode.THUMBNAIL_SIZE im = Ok im' ->
  Lamcode.process_record w (record_of bucket key) tr
  = let pre :=
      (tr ++ [Log INFO "Processing image"; GetObject bucket key])%list in
    match save_jpeg w im' 80 false with
    | Raise e => (pre, Raise e)
    | Ok buf =>
        let put :=
          PutObject (THUMBNAIL_BUCKET w) (KeyDeriver.lamcode_thumbnail_key key)
                    buf "image/jpeg" [] in
        match s3_put_object w pre (THUMBNAIL_BUCKET w)
                            (KeyDeriver.lamcode_thumbnail_key key) buf with
        | Raise e => ((pre ++ [put])%list, Raise e)
        | Ok _ =>
            let subject := SubjectText "Image Thumbnail Generated Successfully" in
            let notice :=
              MessageText
                ("Image Processing Complete!" ++ Lamcode.newline
                 ++ "Original Image: " ++ key ++ Lamcode.newline
                 ++ "Original Bucket: " ++ bucket ++ Lamcode.newline
                 ++ "Thumbnail Created: "
                 ++ KeyDeriver.lamcode_thumbnail_key key ++ Lamcode.newline
                 ++ "Thumbnail Bucket: "
                 ++ Lamcode.str_of_env (THUMBNAIL_BUCKET w)) in
            match sns_publish w (pre ++ [put])%list (SNS_TOPIC_ARN w)
                              subject notice with
            | Raise e =>
                ((pre ++ [put; Publish (SNS_TOPIC_ARN w) subject notice])%list,
                 Raise e)
            | Ok _ =>
                ((pre ++ [put; Publish (SNS_TOPIC_ARN w) subject notice;
                          Log INFO ("Thumbnail created: "
                                      ++ KeyDeriver.lamcode_thumbnail_key key)])%list,
                 Ok tt)
            end
        end
    end.
Proof.
  intros Hg Ho Ht.
  unfold Lamcode.process_record, get_object, put_object, publish.
  unfold bind, lift, log, call, now. simpl. rewrite Hg, Ho, Ht.
  destruct (save_jpeg w im' 80 false) as [buf|e]; [|flat; reflexivity].
  flat.
  destruct (s3_put_object w _ _ _ _) as [[]|e]; [|flat; reflexivity].
  flat.
  destruct (sns_publish w _ _ _ _) as [[]|e]; flat; reflexivity.
Qed.

End RunFacts.

Section ImageClaims.
Import Py PIL Aws Properties LambdaFunction Scenario.

(** C7. For every decoded image whose sides are positive (and, as
    Pillow has them, C [int]s), the image each handler encodes and uploads
    is the result of [thumbnail] for the 200x200 box - applied to the
    normalised image in [src/docs/lambda-function.py], to the decoded image
    in [src/lamcode.py].  That result is at most 200 wide and 200 high and
    never larger than the source; a source already inside the box is not
    resized; otherwise one side is 200 and the other is within one pixel of
    the exactly proportional length, in Python's float arithmetic.  What
    either handler uploads, if anything, is the encoding of that image. *)
Theorem thumbnail_within_bounds
        (w : world) (bucket key : string) (tr : trace)
        (image_data : bytes) (im : image) :
  0 < width im < 2 ^ 31 -> 0 < height im < 2 ^ 31 ->
  s3_get_object w (tr ++ [Log INFO "Processing image"])%list bucket key
  = Ok image_data ->
  Image_open w image_data = Ok im ->
  exists full reduced,
    thumbnail (resample_filter w) LambdaFunction.THUMBNAIL_SIZE
              (LambdaFunction.normalize im) = Ok full
    /\ thumbnail (resample_filter w) Lamcode.THUMBNAIL_SIZE im = Ok reduced
    /\ fits_box im full /\ fits_box im reduced
    /\ (width im <= 200 -> height im <= 200 ->
        full = LambdaFunction.normalize im /\ reduced = im)
    /\ (let run := LambdaFunction.process_record w (record_of bucket key) tr in
        match save_jpeg w full LambdaFunction.THUMBNAIL_QUALITY true with
        | Raise e => snd run = Raise e /\ uploads (fst run) = uploads tr
        | Ok buf =>
            exists t,
              uploads (fst run)
              = (uploads tr
                   ++ [PutObject (THUMBNAIL_BUCKET w)
                                 (KeyDeriver.thumbnail_key key) buf "image/jpeg"
                                 [("original-image", key);
                                  ("source-bucket", bucket);
                                  ("generated-by", "Lambda-ThumbnailGenerator");
                                  ("generation-time", t)]])%list
        end)
    /\ (let run := Lamcode.process_record w (record_of bucket key) tr in
        match save_jpeg w reduced 80 false with
        | Raise e => snd run = Raise e /\ uploads (fst run) = uploads tr
        | Ok buf =>
            uploads (fst run)
            = (uploads tr
                 ++ [PutObject (THUMBNAIL_BUCKET w)
                               (KeyDeriver.lamcode_thumbnail_key key) buf
                               "image/jpeg" []])%list
        end).
Proof.
  intros HW HH Hg Ho.
  destruct (normalize_size im) as [Ew Eh].
  destruct (thumbnail_box (resample_filter w) (LambdaFunction.normalize im))
    as (full & Hf & F1 & F2 & F3 & F4 & F5 & F6 & _); [lia | lia |].
  destruct (thumbnail_box (resample_filter w) im HW HH)
    as (reduced & Hr & R1 & R2 & R3 & R4 & R5 & R6 & _).
  unfold size in *. rewrite Ew, Eh in *.
  exists full, reduced.
  split; [exact Hf|]. split; [exact Hr|].
  split; [|split; [|split; [|split]]].
  - unfold fits_box, size. repeat split; try lia; assumption.
  - unfold fits_box, size. repeat split; try lia; assumption.
  - intros Lw Lh. split; [now apply F5 | now apply R5].
  - cbv zeta.
    rewrite (process_record_run w bucket key tr image_data im full Hg Ho Hf).
    cbv zeta.
    destruct (save_jpeg w full LambdaFunction.THUMBNAIL_QUALITY true) as [buf|e].
    + eexists.
      destruct (s3_put_object w _ _ _ _) as [[]|e];
        [destruct (sns_publish w _ _ _ _) as [[]|e]|];
        cbn [fst]; flat; calls; reflexivity.
    + cbn [fst snd]. calls. now split.
  - cbv zeta.
    rewrite (lamcode_process_record_run w bucket key tr image_data im reduced
               Hg Ho Hr).
    cbv zeta.
    destruct (save_jpeg w reduced 80 false) as [buf|e].
    + destruct (s3_put_object w _ _ _ _) as [[]|e];
        [destruct (sns_publish w _ _ _ _) as [[]|e]|];
        cbn [fst]; flat; calls; reflexivity.
    + cbn [fst snd]. calls. now split.
Qed.

Lemma thumbnail_within_bounds_witness :
  exists full reduced,
    thumbnail (resample_filter sns_up) LambdaFunction.THUMBNAIL_SIZE
              (LambdaFunction.normalize wide_image) = Ok full
    /\ thumbnail (resample_filter sns_up) Lamcode.THUMBNAIL_SIZE wide_image
       = Ok reduced
    /\ fits_box wide_image full /\ fits_box wide_image reduced
    /\ (width wide_image <= 200 -> height wide_image <= 200 ->
        full = LambdaFunction.normalize wide_image /\ reduced = wide_image)
    /\ (let run := LambdaFunction.process_record sns_up
                     (record_of "src" "a/cat.png") [] in
        match save_jpeg sns_up full LambdaFunction.THUMBNAIL_QUALITY true with
        | Raise e => snd run = Raise e /\ uploads (fst run) = uploads []
        | Ok buf =>
            exists t,
              uploads (fst run)
              = (uploads []
                   ++ [PutObject (THUMBNAIL_BUCKET sns_up)
                                 (KeyDeriver.thumbnail_key "a/cat.png") buf
                                 "image/jpeg"
                                 [("original-image", "a/cat.png");
                                  ("source-bucket", "src");
                                  ("generated-by", "Lambda-ThumbnailGenerator");
                                  ("generation-time", t)]])%list
        end)
    /\ (let run := Lamcode.process_record sns_up
                     (record_of "src" "a/cat.png") [] in
        match save_jpeg sns_up reduced 80 false with
        | Raise e => snd run = Raise e /\ uploads (fst run) = uploads []
        | Ok buf =>
            uploads (fst run)
            = (uploads []
                 ++ [PutObject (THUMBNAIL_BUCKET sns_up)
                               (KeyDeriver.lamcode_thumbnail_key "a/cat.png") buf
                               "image/jpeg" []])%list
        end).
Proof.
  apply (thumbnail_within_bounds sns_up "src" "a/cat.png" [] stored_bytes
           wide_image);
    [vm_compute; split; reflexivity | vm_compute; split; reflexivity
     | reflexivity | reflexivity].
Defined.

(** C6 fails on this input: a greyscale image with alpha ([LA]) whose
    first pixel is fully transparent.  The normalisation pastes it without
    a mask, so the transparent pixel comes out black, not white; the same
    picture in mode [RGBA] or [P] does come out white there, and an opaque
    [RGB] image passes unchanged. *)
Theorem normalize_LA_transparent_not_white :
  mode (normalize grey_alpha_image) = "RGB"
  /\ nth_error (data grey_alpha_image) 0 = Some [0; 0]
  /\ nth_error (data (normalize grey_alpha_image)) 0 = Some [0; 0; 0]
  /\ nth_error (data (normalize grey_alpha_image)) 0 <> Some white
  /\ nth_error (data (normalize colour_alpha_image)) 0 = Some white
  /\ nth_error (data (normalize palette_image)) 0 = Some white
  /\ normalize wide_image = wide_image.
Proof. repeat split; try reflexivity. discriminate. Qed.

End ImageClaims.

(* ================================================================== *)
(** * More about paths and destination keys *)

Section MorePathFacts.
Import Str PosixPath KeyDeriver Properties.

Lemma rfind_negative (c : ascii) (p : string) :
  rfind c p < 0 -> has_char c p = false.
Proof.
  intros H. destruct (has_char c p) eqn:E; [|reflexivity].
  apply rfind_present in E. lia.
Qed.

(** The last occurrence splits the string: nothing after it holds [c]. *)
Lemma rfind_split (c : ascii) (p : string) :
  0 <= rfind c p ->
  drop (Z.to_nat (rfind c p)) p
  = String c (drop (S (Z.to_nat (rfind c p))) p)
  /\ has_char c (drop (S (Z.to_nat (rfind c p))) p) = false.
Proof.
  induction p as [|a t IH]; simpl rfind; [lia|].
  destruct (0 <=? rfind c t) eqn:E.
  - apply Z.leb_le in E. intros _. destruct (IH E) as [H1 H2].
    replace (Z.to_nat (rfind c t + 1)) with (S (Z.to_nat (rfind c t))) by lia.
    simpl drop at 1 2. split; [exact H1 | exact H2].
  - apply Z.leb_gt in E. destruct (Ascii.eqb_spec a c) as [->|]; [|lia].
    intros _. simpl. split; [reflexivity | now apply rfind_negative].
Qed.

(** A character found at or after position [n] puts [rfind] there. *)
Lemma rfind_drop (c : ascii) (n : nat) (p : string) :
  has_char c (drop n p) = true -> Z.of_nat n <= rfind c p.
Proof.
  revert p. induction n as [|n IH]; intros p H.
  - simpl in H. apply rfind_present in H. lia.
  - destruct p as [|a t]; [discriminate|]. simpl in H. apply IH in H.
    simpl rfind. replace (0 <=? rfind c t) with true
      by (symmetry; apply Z.leb_le; lia). lia.
Qed.

Lemma all_dots_app (a b : string) :
  all_dots (a ++ b) = all_dots a && all_dots b.
Proof.
  induction a as [|x a IH]; simpl; [reflexivity|].
  now rewrite IH, andb_assoc.
Qed.

(** The loop of [splitext] over a stretch [s] of the last component: it
    returns at the first character that is not a dot. *)
Lemma skip_leading_dots_stretch (a s t : string) (d : Z) :
  skip_leading_dots (String.length s) (a ++ s ++ t) (len a) d
  = if all_dots s then None
    else Some (slice_to d (a ++ s ++ t), slice_from d (a ++ s ++ t)).
Proof.
  revert a. induction s as [|c s IH]; intros a; [reflexivity|].
  assert (E1 : slice1 (len a) (a ++ String c s ++ t) = String c "").
  { rewrite <- (Z.add_0_r (len a)), slice1_app by lia. reflexivity. }
  change (skip_leading_dots (String.length (String c s)) (a ++ String c s ++ t)
                            (len a) d)
    with (if String.eqb (slice1 (len a) (a ++ String c s ++ t))
                        (String extsep EmptyString)
          then skip_leading_dots (String.length s) (a ++ String c s ++ t)
                                 (len a + 1) d
          else Some (slice_to d (a ++ String c s ++ t),
                     slice_from d (a ++ String c s ++ t))).
  rewrite E1. simpl all_dots. simpl String.eqb.
  destruct (Ascii.eqb_spec c extsep) as [->|Hc]; [|reflexivity].
  simpl andb. cbv iota.
  replace (a ++ String extsep s ++ t) with ((a ++ ".") ++ s ++ t)
    by (rewrite append_assoc; reflexivity).
  replace (len a + 1) with (len (a ++ ".")) by (rewrite len_app; reflexivity).
  apply IH.
Qed.

(** A last component [pre.ext] loses [.ext] as soon as [pre] holds a
    character other than a dot. *)
Lemma splitext_component (pre ext : string) :
  has_char sep pre = false -> all_dots pre = false ->
  has_char sep ext = false -> has_char extsep ext = false ->
  splitext (pre ++ "." ++ ext) = (pre, "." ++ ext).
Proof.
  intros Hs Hd He Hx. unfold splitext.
  assert (Hsep : rfind sep (pre ++ "." ++ ext) = -1).
  { apply rfind_absent. rewrite has_char_app, Hs. simpl. exact He. }
  assert (Hdot : rfind extsep (pre ++ "." ++ ext) = len pre + 0).
  { rewrite rfind_app. simpl rfind. rewrite (rfind_absent _ _ Hx). reflexivity. }
  rewrite Hsep, Hdot. pose proof (len_nonneg pre).
  replace (-1 <? len pre + 0) with true by (symmetry; apply Z.ltb_lt; lia).
  replace (Z.to_nat (len pre + 0 - (-1 + 1))) with (String.length pre)
    by (unfold len; lia).
  change (-1 + 1) with (len "").
  change (pre ++ "." ++ ext) with ("" ++ pre ++ "." ++ ext).
  rewrite skip_leading_dots_stretch, Hd.
  change ("" ++ pre ++ "." ++ ext) with (pre ++ "." ++ ext).
  rewrite slice_to_app, slice_from_app by lia.
  unfold slice_to, slice_from. simpl take. now rewrite append_empty.
Qed.

(** A last component made of dots only, or without a dot, keeps all of
    itself. *)
Lemma splitext_no_dot (name : string) :
  has_char extsep name = false -> splitext name = (name, "").
Proof.
  intros H. unfold splitext. rewrite (rfind_absent _ _ H).
  pose proof (rfind_lower sep name).
  now replace (rfind sep name <? -1) with false
    by (symmetry; apply Z.ltb_ge; lia).
Qed.

End MorePathFacts.

Section KeyExtras.
Import Str PosixPath KeyDeriver Properties.

Lemma basename_no_slash (p : string) : has_char sep (basename p) = false.
Proof.
  destruct (key_components p) as [H | (dir & name & -> & H)].
  - now rewrite (basename_no_sep p H).
  - now rewrite (basename_dir dir name H).
Qed.

Lemma derived_name_no_slash (b : string) :
  has_char sep b = false -> has_char sep (b ++ "_thumb.jpg") = false.
Proof. intros H. now rewrite has_char_app, H. Qed.

Lemma thumbnail_key_of_component (dir pre ext : string) :
  has_char sep pre = false -> all_dots pre = false ->
  has_char sep ext = false -> has_char extsep ext = false ->
  thumbnail_key (dir ++ "/" ++ pre ++ "." ++ ext)
  = "thumbnails/" ++ pre ++ "_thumb.jpg".
Proof.
  intros Hs Hd He Hx. unfold thumbnail_key.
  assert (Hn : has_char sep (pre ++ "." ++ ext) = false).
  { rewrite has_char_app, Hs. simpl. exact He. }
  rewrite (splitext_dir dir _ Hn), (splitext_component pre ext Hs Hd He Hx).
  cbn [fst]. now rewrite (basename_dir dir pre Hs).
Qed.

(** [os.path.splitext] only cuts: root and extension put together are
    the path again. *)
Theorem splitext_join (p : string) :
  fst (splitext p) ++ snd (splitext p) = p.
Proof.
  unfold splitext. destruct (rfind sep p <? rfind extsep p); [|apply append_empty].
  destruct (skip_leading_dots _ _ _ _) as [r|] eqn:E; [|apply append_empty].
  apply skip_leading_dots_prefix in E. subst r. apply take_drop.
Qed.

(** The extension [os.path.splitext] returns is empty, or a dot followed
    by characters that hold neither a dot nor a slash. *)
Theorem splitext_extension_shape (p : string) :
  snd (splitext p) = ""
  \/ exists e, snd (splitext p) = "." ++ e
               /\ has_char extsep e = false /\ has_char sep e = false.
Proof.
  unfold splitext. destruct (rfind sep p <? rfind extsep p) eqn:L; [|now left].
  destruct (skip_leading_dots _ _ _ _) as [r|] eqn:E; [|now left].
  apply skip_leading_dots_prefix in E. subst r. right.
  apply Z.ltb_lt in L. pose proof (rfind_lower sep p) as Hlo.
  destruct (rfind_split extsep p ltac:(lia)) as [H1 H2].
  exists (drop (S (Z.to_nat (rfind extsep p))) p).
  split; [exact H1|]. split; [exact H2|].
  destruct (has_char sep (drop _ p)) eqn:Hs; [|reflexivity].
  apply rfind_drop in Hs. lia.
Qed.

(** [os.path.basename] returns what follows the last slash: the result
    holds no slash, and the path is a head that is empty or ends in a
    slash, followed by the result. *)
Theorem basename_component (p : string) :
  has_char sep (basename p) = false
  /\ exists head, p = head ++ basename p
                  /\ (head = "" \/ exists dir, head = dir ++ "/").
Proof.
  split; [apply basename_no_slash|].
  destruct (key_components p) as [H | (dir & name & -> & H)].
  - exists "". rewrite (basename_no_sep p H). split; [reflexivity | now left].
  - exists (dir ++ "/"). rewrite (basename_dir dir name H).
    split; [now rewrite append_assoc | right; now exists dir].
Qed.

(** The full handler stores every thumbnail directly under
    [thumbnails/]: the derived key holds no slash but the one of the
    prefix. *)
Theorem thumbnail_key_flat (key : string) :
  exists b,
    thumbnail_key key = "thumbnails/" ++ b ++ "_thumb.jpg"
    /\ has_char sep b = false
    /\ basename (thumbnail_key key) = b ++ "_thumb.jpg".
Proof.
  exists (basename (fst (splitext key))).
  pose proof (basename_no_slash (fst (splitext key))) as Hb.
  split; [reflexivity|]. split; [exact Hb|].
  unfold thumbnail_key.
  apply (basename_dir "thumbnails" _ (derived_name_no_slash _ Hb)).
Qed.

(** The reduced handler keeps the directory of the source key in the
    destination key: only the last component loses its extension. *)
Theorem lamcode_thumbnail_key_nested (dir name : string) :
  has_char sep name = false ->
  lamcode_thumbnail_key (dir ++ "/" ++ name)
  = "thumbnails/" ++ (dir ++ "/" ++ fst (splitext name)) ++ "_thumb.jpg".
Proof.
  intros H. unfold lamcode_thumbnail_key. now rewrite (splitext_dir dir name H).
Qed.

Lemma lamcode_thumbnail_key_nested_witness :
  lamcode_thumbnail_key ("2024/05" ++ "/" ++ "cat.png")
  = "thumbnails/" ++ ("2024/05" ++ "/" ++ fst (splitext "cat.png")) ++ "_thumb.jpg".
Proof. apply (lamcode_thumbnail_key_nested "2024/05" "cat.png"). reflexivity. Defined.

(** A source key that ends in a slash (a folder marker) has an empty
    base name: the full handler derives [thumbnails/_thumb.jpg] for every
    such key, and for the empty key. *)
Theorem thumbnail_key_of_folder (dir : string) :
  thumbnail_key (dir ++ "/") = "thumbnails/_thumb.jpg"
  /\ thumbnail_key "" = "thumbnails/_thumb.jpg".
Proof.
  split; [|reflexivity]. unfold thumbnail_key.
  change (dir ++ "/") with (dir ++ "/" ++ "").
  rewrite (splitext_dir dir "" eq_refl). cbn [fst splitext].
  change (fst (splitext "")) with "".
  now rewrite (basename_dir dir "" eq_refl).
Qed.

(** A last component without a dot has no extension to strip, also
    when a directory of the key has dots: the full handler derives
    [thumbnails/{name}_thumb.jpg]. *)
Theorem thumbnail_key_no_extension (dir name : string) :
  has_char sep name = false -> has_char extsep name = false ->
  thumbnail_key name = "thumbnails/" ++ name ++ "_thumb.jpg"
  /\ thumbnail_key (dir ++ "/" ++ name) = "thumbnails/" ++ name ++ "_thumb.jpg".
Proof.
  intros Hs Hd. unfold thumbnail_key.
  rewrite (splitext_dir dir name Hs), (splitext_no_dot name Hd). cbn [fst].
  now rewrite (basename_no_sep name Hs), (basename_dir dir name Hs).
Qed.

Lemma thumbnail_key_no_extension_witness :
  thumbnail_key "README" = "thumbnails/" ++ "README" ++ "_thumb.jpg"
  /\ thumbnail_key ("v1.2/docs" ++ "/" ++ "README")
     = "thumbnails/" ++ "README" ++ "_thumb.jpg".
Proof. apply (thumbnail_key_no_extension "v1.2/docs" "README"); reflexivity. Defined.

(** Source keys that differ only in their directory or in their
    extension share one destination key in the full handler: the later
    thumbnail replaces the earlier one. *)
Theorem thumbnail_key_collision (dir1 dir2 pre ext1 ext2 : string) :
  has_char sep pre = false -> all_dots pre = false ->
  has_char sep ext1 = false -> has_char extsep ext1 = false ->
  has_char sep ext2 = false -> has_char extsep ext2 = false ->
  thumbnail_key (dir1 ++ "/" ++ pre ++ "." ++ ext1)
  = thumbnail_key (dir2 ++ "/" ++ pre ++ "." ++ ext2).
Proof.
  intros Hs Hd H1 H2 H3 H4.
  now rewrite !thumbnail_key_of_component.
Qed.

Lemma thumbnail_key_collision_witness :
  thumbnail_key ("2023" ++ "/" ++ "cat" ++ "." ++ "png")
  = thumbnail_key ("2024/05" ++ "/" ++ "cat" ++ "." ++ "jpeg").
Proof.
  apply (thumbnail_key_collision "2023" "2024/05" "cat" "png" "jpeg");
    reflexivity.
Defined.

(** A derived key is never its own derived key: fed back as a source
    key (the destination bucket being also the source), it yields a new
    key with [_thumb] appended once more. *)
Theorem thumbnail_key_rederived (key : string) :
  exists b,
    thumbnail_key key = "thumbnails/" ++ b ++ "_thumb.jpg"
    /\ thumbnail_key (thumbnail_key key)
       = "thumbnails/" ++ (b ++ "_thumb") ++ "_thumb.jpg"
    /\ thumbnail_key (thumbnail_key key) <> thumbnail_key key.
Proof.
  exists (basename (fst (splitext key))).
  pose proof (basename_no_slash (fst (splitext key))) as Hb.
  set (b := basename (fst (splitext key))) in *.
  assert (E1 : thumbnail_key key = "thumbnails/" ++ b ++ "_thumb.jpg")
    by reflexivity.
  assert (E2 : thumbnail_key (thumbnail_key key)
               = "thumbnails/" ++ (b ++ "_thumb") ++ "_thumb.jpg").
  { rewrite E1.
    replace ("thumbnails/" ++ b ++ "_thumb.jpg")
      with ("thumbnails" ++ "/" ++ (b ++ "_thumb") ++ "." ++ "jpg")
      by (simpl; now rewrite append_assoc).
    apply thumbnail_key_of_component; try reflexivity.
    - now rewrite has_char_app, Hb.
    - rewrite all_dots_app. simpl. apply andb_false_r. }
  split; [exact E1|]. split; [exact E2|].
  rewrite E2, E1. intros H.
  apply (f_equal len) in H. revert H.
  rewrite !len_app. change (len "thumbnails/") with 11.
  change (len "_thumb.jpg") with 10. change (len "_thumb") with 6. lia.
Qed.

End KeyExtras.

(* ================================================================== *)
(** * More about the handlers *)


Section HandlerExtras.
Import Py PIL Aws Properties Scenario LambdaFunction.

Ltac traces :=
  repeat rewrite ?fetches_app, ?uploads_app, ?notifications_app, ?subjects_app;
  simpl; rewrite ?app_nil_r.

Lemma invocation_failed_trace (w : world) (e : exn) (tr : trace) :
  exists tr' t,
    invocation_failed w e tr
    = (tr', Ok (Response 500 (error_body (exn_str e) t)))
    /\ fetches tr' = fetches tr
    /\ uploads tr' = uploads tr
    /\ subjects tr' = (subjects tr ++ [CriticalLambdaFunctionError])%list.
Proof.
  unfold invocation_failed, bind, log, call, now, try_except, publish, ret.
  simpl.
  destruct (sns_publish w _ _ _ _) as [[]|e']; eexists; eexists;
    (split; [reflexivity|]); traces; now repeat split.
Qed.

(** With the per-record failure notifications delivered, a batch of
    well-formed records always runs to its end: the full handler returns
    200, counts every record, and has attempted the fetch of each. *)
Theorem well_formed_batch_completes (w : world) (keys : list (string * string)) :
  failure_notices_delivered w ->
  exists tr' t,
    lambda_handler w (event_of (records_of keys)) []
    = (tr', Ok (Response 200 (ok_body (Z.of_nat (length keys)) t)))
    /\ forall bucket key, In (bucket, key) keys -> In (GetObject bucket key) tr'.
Proof.
  intros Hd.
  destruct (batch_survives_record_failures w keys
              (([] ++ [Log INFO "Lambda function triggered"])
                 ++ [Log INFO "Event"])%list Hd) as (tr1 & H1 & Hin).
  eexists. eexists. split.
  - rewrite (lambda_handler_completed w (event_of (records_of keys))
               (JArr (records_of keys)) (records_of keys) [] tr1
               eq_refl eq_refl H1).
    unfold records_of. rewrite length_map. reflexivity.
  - intros b k Hk. apply in_or_app. left. now apply Hin.
Qed.

Lemma well_formed_batch_completes_witness :
  exists tr' t,
    lambda_handler sns_refuses_success
      (event_of (records_of [("src", "missing.png"); ("src", "a/cat.png")])) []
    = (tr', Ok (Response 200 (ok_body 2 t)))
    /\ forall bucket key,
      In (bucket, key) [("src", "missing.png"); ("src", "a/cat.png")] ->
      In (GetObject bucket key) tr'.
Proof.
  apply (well_formed_batch_completes sns_refuses_success
           [("src", "missing.png"); ("src", "a/cat.png")]).
  intros tr arn key m. reflexivity.
Defined.



(** A record object without an [s3] member fails at its first
    subscript: the failure notification reports the [KeyError] with bucket
    and key [Unknown], nothing is fetched, and the loop goes on exactly
    when that notification is delivered. *)
Theorem record_without_s3 (w : world) (members : list (string * json)) (tr : trace) :
  lookup "s3" members = None ->
  exists notice,
    notice = ErrorMessage "KeyError" "'s3'" (datetime_now w
                 (tr ++ [Log ERROR "Error processing record: 's3'"])%list)
               (JStr "Unknown") (JStr "Unknown")
    /\ handle_record w (JObj members) tr
       = ((tr ++ [Log ERROR "Error processing record: 's3'";
                  Publish (SNS_TOPIC_ARN w)
                          (ErrorProcessingImage (JStr "Unknown")) notice])%list,
          sns_publish w (tr ++ [Log ERROR "Error processing record: 's3'"])%list
                      (SNS_TOPIC_ARN w)
                      (ErrorProcessingImage (JStr "Unknown")) notice).
Proof.
  intros H. eexists. split; [reflexivity|].
  unfold handle_record, try_except, process_record.
  unfold bind at 1, lift at 1. cbn [getitem]. rewrite H.
  unfold record_failed, bind, log, call, now, lift, publish, context_of.
  cbn [get]. rewrite H. cbn [get lookup]. unfold call.
  rewrite <- app_assoc. reflexivity.
Qed.

Lemma record_without_s3_witness :
  exists notice,
    notice = ErrorMessage "KeyError" "'s3'" (datetime_now sns_up
                 ([] ++ [Log ERROR "Error processing record: 's3'"])%list)
               (JStr "Unknown") (JStr "Unknown")
    /\ handle_record sns_up (JObj [("eventName", JStr "ObjectCreated:Put")]) []
       = (([] ++ [Log ERROR "Error processing record: 's3'";
                  Publish (SNS_TOPIC_ARN sns_up)
                          (ErrorProcessingImage (JStr "Unknown")) notice])%list,
          sns_publish sns_up ([] ++ [Log ERROR "Error processing record: 's3'"])%list
                      (SNS_TOPIC_ARN sns_up)
                      (ErrorProcessingImage (JStr "Unknown")) notice).
Proof.
  apply (record_without_s3 sns_up [("eventName", JStr "ObjectCreated:Put")] []).
  reflexivity.
Defined.

(** An event whose [Records] member is present but is null, a boolean
    or a number ([int] or [float]) cannot be iterated: the full handler
    returns 500 with the [TypeError] text, which names the type, after one
    fatal notification attempt and no fetch. *)
Theorem Records_not_iterable
        (w : world) (members : list (string * json)) (records : json) :
  lookup "Records" members = Some records ->
  records = JNull \/ (exists b, records = JBool b)
  \/ (exists n, records = JNum n) \/ (exists x, records = JFloat x) ->
  exists tr' t,
    lambda_handler w (JObj members) []
    = (tr', Ok (Response 500
                  (error_body ("'" ++ type_name records
                                   ++ "' object is not iterable") t)))
    /\ fetches tr' = [] /\ uploads tr' = []
    /\ subjects tr' = [CriticalLambdaFunctionError].
Proof.
  intros Hl Hk.
  assert (Hi : iter records
               = Raise (Exn "TypeError"
                            ("'" ++ type_name records ++ "' object is not iterable"))).
  { destruct Hk as [-> | [[b ->] | [[n ->] | [x ->]]]]; reflexivity. }
  unfold lambda_handler, try_except, invocation.
  unfold bind at 1 2 3 4. unfold log at 1 2, call, lift at 1 2.
  cbn [get]. rewrite Hl, Hi.
  destruct (invocation_failed_trace w
              (Exn "TypeError"
                   ("'" ++ type_name records ++ "' object is not iterable"))
              (([] ++ [Log INFO "Lambda function triggered"])
                 ++ [Log INFO "Event"])%list)
    as (tr' & t & H & Hf & Hu & Hs).
  exists tr', t. rewrite H, Hf, Hu, Hs. now repeat split.
Qed.

Lemma Records_not_iterable_witness :
  exists tr' t,
    lambda_handler sns_down (JObj [("Records", JFloat (Finite 2))]) []
    = (tr', Ok (Response 500
                  (error_body ("'" ++ type_name (JFloat (Finite 2))
                                   ++ "' object is not iterable") t)))
    /\ fetches tr' = [] /\ uploads tr' = []
    /\ subjects tr' = [CriticalLambdaFunctionError].
Proof.
  apply (Records_not_iterable sns_down [("Records", JFloat (Finite 2))]
           (JFloat (Finite 2)));
    [reflexivity | right; right; right; now eexists].
Defined.


Ltac flatten_trace :=
  repeat rewrite <- app_assoc; cbn [app];
  rewrite ?fetches_app, ?uploads_app, ?notifications_app, ?subjects_app;
  cbn [fetches uploads notifications subjects filter is_get is_put is_publish];
  rewrite ?app_nil_r.

(** What the full handler does with the thumbnail of a well-formed
    record, once the object is fetched, decoded, resized and encoded: one
    fetch, of the record's own bucket and key, and one upload, to the
    configured bucket, under the derived key, as [image/jpeg] and with the
    source in its metadata.  If S3 refuses that upload the run ends there
    with S3's exception, no notification attempted.  Only if S3 accepts it
    is the success notification published, as the next call; the record
    then ends as SNS answers: normally, or with SNS's exception. *)
Theorem process_record_effects
        (w : world) (bucket key : string) (tr : trace)
        (image_data : bytes) (im im' : image) (thumbnail_buffer : bytes) :
  s3_get_object w (tr ++ [Log INFO "Processing image"])%list bucket key
  = Ok image_data ->
  Image_open w image_data = Ok im ->
  thumbnail (resample_filter w) THUMBNAIL_SIZE (normalize im) = Ok im' ->
  save_jpeg w im' THUMBNAIL_QUALITY true = Ok thumbnail_buffer ->
  let run := process_record w (record_of bucket key) tr in
  let pre :=
    (tr ++ [Log INFO "Processing image"; GetObject bucket key;
            Log INFO "Downloaded image size"; Log INFO "Original image format";
            Log INFO "Thumbnail generated";
            Log INFO "Uploading thumbnail to"])%list in
  let put :=
    PutObject (THUMBNAIL_BUCKET w) (KeyDeriver.thumbnail_key key)
              thumbnail_buffer "image/jpeg"
              [("original-image", key); ("source-bucket", bucket);
               ("generated-by", "Lambda-ThumbnailGenerator");
               ("generation-time", datetime_now w pre)] in
  fetches (fst run) = (fetches tr ++ [GetObject bucket key])%list
  /\ uploads (fst run) = (uploads tr ++ [put])%list
  /\ match s3_put_object w pre (THUMBNAIL_BUCKET w)
                         (KeyDeriver.thumbnail_key key) thumbnail_buffer with
     | Raise e => run = ((pre ++ [put])%list, Raise e)
     | Ok _ =>
         let uploaded :=
           (pre ++ [put; Log INFO "Thumbnail uploaded successfully"])%list in
         let subject := ThumbnailGenerated (PosixPath.basename key) in
         exists notice,
           match sns_publish w uploaded (SNS_TOPIC_ARN w) subject notice with
           | Raise e =>
               run = ((uploaded ++ [Publish (SNS_TOPIC_ARN w) subject notice])%list,
                      Raise e)
           | Ok _ =>
               run = ((uploaded ++ [Publish (SNS_TOPIC_ARN w) subject notice;
                                    Log INFO "Success notification sent via SNS"])%list,
                      Ok tt)
           end
     end.
Proof.
  intros Hg Ho Ht Hs. cbv zeta.
  rewrite (process_record_run w bucket key tr image_data im im' Hg Ho Ht).
  cbv zeta. rewrite Hs. flat.
  destruct (s3_put_object w _ _ _ _) as [[]|e].
  - split; [|split].
    + destruct (sns_publish w _ _ _ _) as [[]|e]; cbn [fst]; calls; reflexivity.
    + destruct (sns_publish w _ _ _ _) as [[]|e]; cbn [fst]; calls; reflexivity.
    + match goal with
      | |- context [sns_publish w _ _ _ ?m] => exists m
      end.
      destruct (sns_publish w _ _ _ _) as [[]|e]; flat; reflexivity.
  - cbn [fst]. calls. now repeat split.
Qed.

Lemma process_record_effects_witness :
  let w := sns_refuses_success in
  let run := process_record w (record_of "src" "a/cat.png") [] in
  let pre :=
    ([] ++ [Log INFO "Processing image"; GetObject "src" "a/cat.png";
            Log INFO "Downloaded image size"; Log INFO "Original image format";
            Log INFO "Thumbnail generated";
            Log INFO "Uploading thumbnail to"])%list in
  let put :=
    PutObject (THUMBNAIL_BUCKET w) (KeyDeriver.thumbnail_key "a/cat.png")
              jpeg_bytes "image/jpeg"
              [("original-image", "a/cat.png"); ("source-bucket", "src");
               ("generated-by", "Lambda-ThumbnailGenerator");
               ("generation-time", datetime_now w pre)] in
  fetches (fst run) = (fetches [] ++ [GetObject "src" "a/cat.png"])%list
  /\ uploads (fst run) = (uploads [] ++ [put])%list
  /\ match s3_put_object w pre (THUMBNAIL_BUCKET w)
                         (KeyDeriver.thumbnail_key "a/cat.png") jpeg_bytes with
     | Raise e => run = ((pre ++ [put])%list, Raise e)
     | Ok _ =>
         let uploaded :=
           (pre ++ [put; Log INFO "Thumbnail uploaded successfully"])%list in
         let subject := ThumbnailGenerated (PosixPath.basename "a/cat.png") in
         exists notice,
           match sns_publish w uploaded (SNS_TOPIC_ARN w) subject notice with
           | Raise e =>
               run = ((uploaded ++ [Publish (SNS_TOPIC_ARN w) subject notice])%list,
                      Raise e)
           | Ok _ =>
               run = ((uploaded ++ [Publish (SNS_TOPIC_ARN w) subject notice;
                                    Log INFO "Success notification sent via SNS"])%list,
                      Ok tt)
           end
     end.
Proof.
  apply (process_record_effects sns_refuses_success "src" "a/cat.png" []
           stored_bytes wide_image
           (Image (Some "PNG") "RGB" 200 1 (repeat [10; 20; 30] 200) [])
           jpeg_bytes);
    vm_compute; reflexivity.
Defined.


Lemma process_record_notices
      (w : world) (bucket key : string) (tr tr' : trace) (r : result unit) :
  notices_delivered w ->
  process_record w (record_of bucket key) tr = (tr', r) ->
  match r with
  | Ok _ => length (notifications tr') = S (length (notifications tr))
  | Raise _ => notifications tr' = notifications tr
  end.
Proof.
  intros Hd. unfold process_record, get_object, put_object, publish.
  unfold bind, lift, log, call, now. simpl.
  repeat (rewrite ?Hd;
          match goal with
          | |- match ?x with _ => _ end = _ -> _ => destruct x
          end);
    rewrite ?Hd; intros [= <- <-]; flatten_trace;
    rewrite ?length_app; simpl; try reflexivity; lia.
Qed.

Lemma handle_record_one_notice
      (w : world) (bucket key : string) (tr tr' : trace) (r : result unit) :
  notices_delivered w ->
  handle_record w (record_of bucket key) tr = (tr', r) ->
  r = Ok tt
  /\ length (notifications tr') = S (length (notifications tr)).
Proof.
  intros Hd. unfold handle_record, try_except.
  destruct (process_record w (record_of bucket key) tr) as [tr1 r1] eqn:E.
  pose proof (process_record_notices w bucket key tr tr1 r1 Hd E) as Hn.
  destruct r1 as [[]|e].
  - intros [= <- <-]. now split.
  - unfold record_failed, publish. unfold bind, lift, log, call, now. simpl.
    rewrite Hd. intros [= <- <-]. split; [reflexivity|].
    flatten_trace. rewrite length_app, Hn. simpl. lia.
Qed.

Lemma for_records_one_notice_each
      (w : world) (keys : list (string * string)) (tr : trace) :
  notices_delivered w ->
  exists tr',
    for_records w (records_of keys) tr = (tr', Ok tt)
    /\ length (notifications tr')
       = (length (notifications tr) + length keys)%nat.
Proof.
  intros Hd. revert tr. induction keys as [|[b k] rest IH]; intros tr.
  - exists tr. split; [reflexivity | simpl; lia].
  - simpl. unfold bind.
    destruct (handle_record w (record_of b k) tr) as [tr1 r] eqn:E.
    destruct (handle_record_one_notice w b k tr tr1 r Hd E) as [-> Hn].
    destruct (IH tr1) as (tr' & H & Hl). exists tr'.
    split; [exact H | simpl; lia].
Qed.

(** With SNS delivering every notification, a batch of well-formed
    records produces exactly one notification per record - success or
    failure - and no other: the full handler returns 200 and the number of
    notifications equals the number of records. *)
Theorem one_notification_per_record
        (w : world) (keys : list (string * string)) :
  notices_delivered w ->
  exists tr' t,
    lambda_handler w (event_of (records_of keys)) []
    = (tr', Ok (Response 200 (ok_body (Z.of_nat (length keys)) t)))
    /\ length (notifications tr') = length keys.
Proof.
  intros Hd.
  destruct (for_records_one_notice_each w keys
              (([] ++ [Log INFO "Lambda function triggered"])
                 ++ [Log INFO "Event"])%list Hd) as (tr1 & H1 & Hn).
  eexists. eexists. split.
  - rewrite (lambda_handler_completed w (event_of (records_of keys))
               (JArr (records_of keys)) (records_of keys) [] tr1
               eq_refl eq_refl H1).
    unfold records_of. rewrite length_map. reflexivity.
  - rewrite notifications_app. simpl. rewrite app_nil_r. exact Hn.
Qed.

Lemma one_notification_per_record_witness :
  exists tr' t,
    lambda_handler sns_up
      (event_of (records_of [("src", "missing.png"); ("src", "a/cat.png")])) []
    = (tr', Ok (Response 200 (ok_body 2 t)))
    /\ length (notifications tr') = 2%nat.
Proof.
  apply (one_notification_per_record sns_up
           [("src", "missing.png"); ("src", "a/cat.png")]).
  intros tr arn s m. reflexivity.
Defined.

(** The same for the reduced handler: one fetch, and one upload, to
    the configured bucket, under the key that keeps the source directory,
    as [image/jpeg] and without metadata.  A refused upload ends the run
    with S3's exception and no notification; an accepted one is followed
    directly by the success notification, whose answer decides how the
    record ends. *)
Theorem lamcode_process_record_effects
        (w : world) (bucket key : string) (tr : trace)
        (image_data : bytes) (im im' : image) (thumbnail_buffer : bytes) :
  s3_get_object w (tr ++ [Log INFO "Processing image"])%list bucket key
  = Ok image_data ->
  Image_open w image_data = Ok im ->
  thumbnail (resample_filter w) Lamcode.THUMBNAIL_SIZE im = Ok im' ->
  save_jpeg w im' 80 false = Ok thumbnail_buffer ->
  let run := Lamcode.process_record w (record_of bucket key) tr in
  let pre := (tr ++ [Log INFO "Processing image"; GetObject bucket key])%list in
  let put :=
    PutObject (THUMBNAIL_BUCKET w) (KeyDeriver.lamcode_thumbnail_key key)
              thumbnail_buffer "image/jpeg" [] in
  fetches (fst run) = (fetches tr ++ [GetObject bucket key])%list
  /\ uploads (fst run) = (uploads tr ++ [put])%list
  /\ match s3_put_object w pre (THUMBNAIL_BUCKET w)
                         (KeyDeriver.lamcode_thumbnail_key key)
                         thumbnail_buffer with
     | Raise e => run = ((pre ++ [put])%list, Raise e)
     | Ok _ =>
         let subject := SubjectText "Image Thumbnail Generated Successfully" in
         exists notice,
           match sns_publish w (pre ++ [put])%list (SNS_TOPIC_ARN w)
                             subject notice with
           | Raise e =>
               run = ((pre ++ [put; Publish (SNS_TOPIC_ARN w) subject notice])%list,
                      Raise e)
           | Ok _ =>
               run = ((pre ++ [put; Publish (SNS_TOPIC_ARN w) subject notice;
                               Log INFO ("Thumbnail created: "
                                           ++ KeyDeriver.lamcode_thumbnail_key key)])%list,
                      Ok tt)
           end
     end.
Proof.
  intros Hg Ho Ht Hs. cbv zeta.
  rewrite (lamcode_process_record_run w bucket key tr image_data im im' Hg Ho Ht).
  cbv zeta. rewrite Hs. flat.
  destruct (s3_put_object w _ _ _ _) as [[]|e].
  - split; [|split].
    + destruct (sns_publish w _ _ _ _) as [[]|e]; cbn [fst]; calls; reflexivity.
    + destruct (sns_publish w _ _ _ _) as [[]|e]; cbn [fst]; calls; reflexivity.
    + match goal with
      | |- context [sns_publish w _ _ _ ?m] => exists m
      end.
      destruct (sns_publish w _ _ _ _) as [[]|e]; flat; reflexivity.
  - cbn [fst]. calls. now repeat split.
Qed.

Lemma lamcode_process_record_effects_witness :
  let w := sns_down in
  let run := Lamcode.process_record w (record_of "src" "a/cat.png") [] in
  let pre := ([] ++ [Log INFO "Processing image";
                     GetObject "src" "a/cat.png"])%list in
  let put :=
    PutObject (THUMBNAIL_BUCKET w) (KeyDeriver.lamcode_thumbnail_key "a/cat.png")
              jpeg_bytes "image/jpeg" [] in
  fetches (fst run) = (fetches [] ++ [GetObject "src" "a/cat.png"])%list
  /\ uploads (fst run) = (uploads [] ++ [put])%list
  /\ match s3_put_object w pre (THUMBNAIL_BUCKET w)
                         (KeyDeriver.lamcode_thumbnail_key "a/cat.png")
                         jpeg_bytes with
     | Raise e => run = ((pre ++ [put])%list, Raise e)
     | Ok _ =>
         let subject := SubjectText "Image Thumbnail Generated Successfully" in
         exists notice,
           match sns_publish w (pre ++ [put])%list (SNS_TOPIC_ARN w)
                             subject notice with
           | Raise e =>
               run = ((pre ++ [put; Publish (SNS_TOPIC_ARN w) subject notice])%list,
                      Raise e)
           | Ok _ =>
               run = ((pre ++ [put; Publish (SNS_TOPIC_ARN w) subject notice;
                               Log INFO ("Thumbnail created: "
                                           ++ KeyDeriver.lamcode_thumbnail_key
                                                "a/cat.png")])%list,
                      Ok tt)
           end
     end.
Proof.
  apply (lamcode_process_record_effects sns_down "src" "a/cat.png" []
           stored_bytes wide_image
           (Image (Some "PNG") "RGB" 200 1 (repeat [10; 20; 30] 200) [])
           jpeg_bytes);
    vm_compute; reflexivity.
Defined.

End HandlerExtras.

Section LamcodeExtras.
Import Py PIL Aws Properties Scenario.

(** The loop over a batch is the loop over its first part followed,
    if that part ends normally, by the loop over the rest. *)
Lemma lamcode_for_records_app (w : world) (pre rest : list json) (tr : trace) :
  Lamcode.for_records w (pre ++ rest) tr
  = match Lamcode.for_records w pre tr with
    | (tr1, Ok _) => Lamcode.for_records w rest tr1
    | (tr1, Raise e) => (tr1, Raise e)
    end.
Proof.
  revert tr. induction pre as [|r pre IH]; intros tr; [reflexivity|].
  simpl. unfold bind.
  destruct (Lamcode.process_record w r tr) as [tr1 [[]|e]]; [apply IH | reflexivity].
Qed.

(** The reduced handler lets an exception out only when its error
    notification is refused: it returns 200 with its fixed body when the
    loop ends normally, and otherwise 500 with [Error: str(e)] if SNS
    accepts the [Image Processing Error] notification, or that
    notification's own exception if not. *)
Theorem lamcode_handler_outcome (w : world) (event : json) (tr : trace) :
  (exists tr',
      Lamcode.lambda_handler w event tr
      = (tr', Ok (Response 200
                    (json_dumps (JStr "Thumbnails generated successfully!")))))
  \/ exists e tr1,
      Lamcode.invocation w event tr = (tr1, Raise e)
      /\ Lamcode.lambda_handler w event tr
         = ((tr1 ++ [Log ERROR ("Error processing image: " ++ exn_str e);
                     Publish (SNS_TOPIC_ARN w)
                             (SubjectText "Image Processing Error")
                             (MessageText ("Error: " ++ exn_str e))])%list,
            match sns_publish w
                    (tr1 ++ [Log ERROR ("Error processing image: " ++ exn_str e)])%list
                    (SNS_TOPIC_ARN w) (SubjectText "Image Processing Error")
                    (MessageText ("Error: " ++ exn_str e)) with
            | Ok _ => Ok (Response 500
                            (json_dumps (JStr ("Error: " ++ exn_str e))))
            | Raise e' => Raise e'
            end).
Proof.
  unfold Lamcode.lambda_handler, try_except.
  destruct (Lamcode.invocation w event tr) as [tr1 [r|e]] eqn:E.
  - left. exists tr1. f_equal. f_equal. revert E.
    unfold Lamcode.invocation, bind, lift, ret.
    destruct (getitem event "Records") as [records|]; [|discriminate].
    destruct (iter records) as [items|]; [|discriminate].
    destruct (Lamcode.for_records w items tr) as [tr2 [[]|]]; [|discriminate].
    now intros [= _ <-].
  - right. exists e, tr1. split; [reflexivity|].
    apply lamcode_invocation_failed.
Qed.

(** The reduced handler stops at the first record that fails: the
    records before it are processed, none after it is touched, and the
    invocation ends in the error path with that record's exception. *)
Theorem lamcode_first_failure_stops
        (w : world) (pre rest : list json) (record : json)
        (tr tr1 tr2 : trace) (e : exn) :
  Lamcode.for_records w pre tr = (tr1, Ok tt) ->
  Lamcode.process_record w record tr1 = (tr2, Raise e) ->
  Lamcode.lambda_handler w (event_of (pre ++ record :: rest)) tr
  = ((tr2 ++ [Log ERROR ("Error processing image: " ++ exn_str e);
              Publish (SNS_TOPIC_ARN w) (SubjectText "Image Processing Error")
                      (MessageText ("Error: " ++ exn_str e))])%list,
     match sns_publish w
             (tr2 ++ [Log ERROR ("Error processing image: " ++ exn_str e)])%list
             (SNS_TOPIC_ARN w) (SubjectText "Image Processing Error")
             (MessageText ("Error: " ++ exn_str e)) with
     | Ok _ => Ok (Response 500 (json_dumps (JStr ("Error: " ++ exn_str e))))
     | Raise e' => Raise e'
     end).
Proof.
  intros Hpre Hrec.
  unfold Lamcode.lambda_handler, try_except, Lamcode.invocation.
  unfold bind at 1 2 3, lift. cbn [getitem event_of lookup String.eqb Ascii.eqb Bool.eqb iter].
  rewrite lamcode_for_records_app, Hpre. simpl Lamcode.for_records.
  unfold bind at 1. rewrite Hrec.
  apply lamcode_invocation_failed.
Qed.

Lemma lamcode_first_failure_stops_witness :
  exists tr2,
    Lamcode.lambda_handler sns_up
      (event_of ([record_of "src" "a.png"]
                   ++ record_of "src" "missing.png" :: [record_of "src" "b.png"])) []
    = ((tr2 ++ [Log ERROR ("Error processing image: " ++ exn_str NoSuchKey);
                Publish (SNS_TOPIC_ARN sns_up)
                        (SubjectText "Image Processing Error")
                        (MessageText ("Error: " ++ exn_str NoSuchKey))])%list,
       match sns_publish sns_up
               (tr2 ++ [Log ERROR ("Error processing image: " ++ exn_str NoSuchKey)])%list
               (SNS_TOPIC_ARN sns_up) (SubjectText "Image Processing Error")
               (MessageText ("Error: " ++ exn_str NoSuchKey)) with
       | Ok _ => Ok (Response 500
                       (json_dumps (JStr ("Error: " ++ exn_str NoSuchKey))))
       | Raise e' => Raise e'
       end)
    /\ fetches tr2 = [GetObject "src" "a.png"; GetObject "src" "missing.png"].
Proof.
  eexists. split.
  - eapply (lamcode_first_failure_stops sns_up [record_of "src" "a.png"]
              [record_of "src" "b.png"] (record_of "src" "missing.png") []);
      vm_compute; reflexivity.
  - vm_compute. reflexivity.
Defined.

End LamcodeExtras.

(* ================================================================== *)
(** * More about the image transformer *)

Section ImageExtras.
Import Py PIL Aws Properties Scenario LambdaFunction.

(** Pillow's [DIV255] is division by 255 rounded to nearest, for the
    products of two bytes. *)
Lemma DIV255_rounds (a : Z) :
  0 <= a <= 255 * 255 -> DIV255 a = (a + 127) / 255.
Proof.
  intros Ha. unfold DIV255. rewrite !Z.shiftr_div_pow2 by lia.
  change (2 ^ 8) with 256. Z.div_mod_to_equations. lia.
Qed.

(** Blending a byte onto white: the result lies between the byte and
    255, is the byte itself under full opacity and 255 under none. *)
Lemma blend_onto_white (c a : Z) :
  is_byte c -> is_byte a ->
  c <= BLEND8 a 255 c <= 255
  /\ (a = 255 -> BLEND8 a 255 c = c)
  /\ (a = 0 -> BLEND8 a 255 c = 255).
Proof.
  unfold is_byte, BLEND8. intros Hc Ha.
  assert (Ht : 0 <= 255 * (255 - a) + c * a <= 255 * 255) by nia.
  rewrite (DIV255_rounds _ Ht).
  assert (Hlow : 255 * c <= 255 * (255 - a) + c * a) by nia.
  split; [split|split].
  - apply Z.div_le_lower_bound; lia.
  - assert ((255 * (255 - a) + c * a + 127) / 255 < 256)
      by (apply Z.div_lt_upper_bound; lia).
    lia.
  - intros ->. replace (255 * (255 - 255) + c * 255 + 127) with (c * 255 + 127) by lia.
    symmetry. apply Z.div_unique with (r := 127); lia.
  - intros ->. rewrite Z.mul_0_r. reflexivity.
Qed.

(** A second pass changes nothing: after the normalisation an image is
    never again in one of the modes the step handles. *)
Theorem normalize_idempotent (im : image) :
  existsb (String.eqb (mode (normalize im))) ["RGBA"; "LA"; "P"] = false
  /\ normalize (normalize im) = normalize im.
Proof.
  assert (H : existsb (String.eqb (mode (normalize im))) ["RGBA"; "LA"; "P"]
              = false).
  { destruct (existsb (String.eqb (mode im)) ["RGBA"; "LA"; "P"]) eqn:E.
    - now rewrite (normalize_mode im E).
    - now rewrite (normalize_opaque im E). }
  split; [exact H | now apply normalize_opaque].
Qed.

(** In the full handler a record whose image was decoded as [RGBA],
    [LA], [P] or in a mode JPEG can hold always reaches the encoder: after
    normalisation and resizing the image is in a mode JPEG can hold, so the
    run ends with the encoder's own exception, or goes on to upload what
    the encoder returned. *)
Theorem normalized_image_is_writable
        (w : world) (bucket key : string) (tr : trace)
        (image_data : bytes) (im im' : image) :
  s3_get_object w (tr ++ [Log INFO "Processing image"])%list bucket key
  = Ok image_data ->
  Image_open w image_data = Ok im ->
  existsb (String.eqb (mode im)) ["RGBA"; "LA"; "P"] = true
  \/ jpeg_rawmode (mode im) = true ->
  thumbnail (resample_filter w) THUMBNAIL_SIZE (normalize im) = Ok im' ->
  let run := process_record w (record_of bucket key) tr in
  jpeg_rawmode (mode im') = true
  /\ match jpeg_encoder w im' THUMBNAIL_QUALITY true with
     | Raise e =>
         run = ((tr ++ [Log INFO "Processing image"; GetObject bucket key;
                        Log INFO "Downloaded image size";
                        Log INFO "Original image format";
                        Log INFO "Thumbnail generated"])%list, Raise e)
     | Ok buf =>
         exists t,
           uploads (fst run)
           = (uploads tr
                ++ [PutObject (THUMBNAIL_BUCKET w)
                              (KeyDeriver.thumbnail_key key) buf "image/jpeg"
                              [("original-image", key);
                               ("source-bucket", bucket);
                               ("generated-by", "Lambda-ThumbnailGenerator");
                               ("generation-time", t)]])%list
     end.
Proof.
  intros Hg Ho Hm Ht. cbv zeta.
  destruct (save_normalized w im im' THUMBNAIL_QUALITY true Hm Ht) as [X Hs].
  split; [exact X|].
  rewrite (process_record_run w bucket key tr image_data im im' Hg Ho Ht).
  cbv zeta. rewrite Hs.
  destruct (jpeg_encoder w im' THUMBNAIL_QUALITY true) as [buf|e];
    [|reflexivity].
  eexists.
  destruct (s3_put_object w _ _ _ _) as [[]|e];
    [destruct (sns_publish w _ _ _ _) as [[]|e]|];
    cbn [fst]; flat; calls; reflexivity.
Qed.

Lemma normalized_image_is_writable_witness :
  let w := world_decoding colour_alpha_image in
  let run := process_record w (record_of "src" "logo.png") [] in
  jpeg_rawmode (mode (normalize colour_alpha_image)) = true
  /\ match jpeg_encoder w (normalize colour_alpha_image)
                        THUMBNAIL_QUALITY true with
     | Raise e =>
         run = (([] ++ [Log INFO "Processing image"; GetObject "src" "logo.png";
                        Log INFO "Downloaded image size";
                        Log INFO "Original image format";
                        Log INFO "Thumbnail generated"])%list, Raise e)
     | Ok buf =>
         exists t,
           uploads (fst run)
           = (uploads []
                ++ [PutObject (THUMBNAIL_BUCKET w)
                              (KeyDeriver.thumbnail_key "logo.png") buf
                              "image/jpeg"
                              [("original-image", "logo.png");
                               ("source-bucket", "src");
                               ("generated-by", "Lambda-ThumbnailGenerator");
                               ("generation-time", t)]])%list
     end.
Proof.
  apply (normalized_image_is_writable (world_decoding colour_alpha_image)
           "src" "logo.png" [] stored_bytes colour_alpha_image
           (normalize colour_alpha_image));
    [reflexivity | reflexivity | now left | reflexivity].
Defined.

(** The reduced handler has no normalisation: a record whose image
    decodes in a mode JPEG cannot hold (an [RGBA] or palette PNG) fails
    after its fetch, with nothing uploaded and no success notification;
    when the resize went through, the exception is the encoder's refusal
    of the mode. *)
Theorem lamcode_unwritable_mode_fails
        (w : world) (bucket key : string) (tr : trace)
        (image_data : bytes) (im : image) :
  s3_get_object w (tr ++ [Log INFO "Processing image"])%list bucket key
  = Ok image_data ->
  Image_open w image_data = Ok im ->
  jpeg_rawmode (mode im) = false ->
  exists e,
    Lamcode.process_record w (record_of bucket key) tr
    = ((tr ++ [Log INFO "Processing image"; GetObject bucket key])%list, Raise e)
    /\ ((exists im', thumbnail (resample_filter w) Lamcode.THUMBNAIL_SIZE im = Ok im')
        -> e = Exn "OSError" ("cannot write mode " ++ mode im ++ " as JPEG")).
Proof.
  intros Hg Ho Hm.
  unfold Lamcode.process_record, get_object.
  unfold bind, lift, log, call. simpl. rewrite Hg, Ho.
  destruct (thumbnail (resample_filter w) Lamcode.THUMBNAIL_SIZE im)
    as [im'|e] eqn:Et.
  - unfold save_jpeg. rewrite (thumbnail_mode _ _ _ _ Et), Hm.
    eexists. split; [now rewrite <- app_assoc|]. reflexivity.
  - exists e. split; [now rewrite <- app_assoc|].
    intros [im' H]. discriminate.
Qed.

Lemma lamcode_unwritable_mode_fails_witness :
  exists e,
    Lamcode.process_record (world_decoding colour_alpha_image)
                           (record_of "src" "logo.png") []
    = (([] ++ [Log INFO "Processing image"; GetObject "src" "logo.png"])%list,
       Raise e)
    /\ ((exists im',
           thumbnail (resample_filter (world_decoding colour_alpha_image))
                     Lamcode.THUMBNAIL_SIZE colour_alpha_image = Ok im')
        -> e = Exn "OSError"
                   ("cannot write mode " ++ mode colour_alpha_image ++ " as JPEG")).
Proof.
  apply (lamcode_unwritable_mode_fails (world_decoding colour_alpha_image)
           "src" "logo.png" [] stored_bytes colour_alpha_image);
    reflexivity.
Defined.

(** How the full handler composites an [RGBA] pixel onto white: each
    colour channel ends between its source value and 255; a fully opaque
    pixel keeps its colour, a fully transparent one becomes white. *)
Theorem normalize_RGBA_composites
        (im : image) (i : nat) (r g b a : Z) :
  mode im = "RGBA" ->
  (i < Z.to_nat (width im * height im))%nat ->
  nth_error (data im) i = Some [r; g; b; a] ->
  is_byte r -> is_byte g -> is_byte b -> is_byte a ->
  exists r' g' b',
    nth_error (data (normalize im)) i = Some [r'; g'; b']
    /\ r <= r' <= 255 /\ g <= g' <= 255 /\ b <= b' <= 255
    /\ (a = 255 -> r' = r /\ g' = g /\ b' = b)
    /\ (a = 0 -> r' = 255 /\ g' = 255 /\ b' = 255).
Proof.
  intros Hm Hi Hp Hr Hg Hb Ha.
  assert (E : data (normalize im)
              = paste_mask_L (data (PIL.new "RGB" (size im) white)) "RGBA"
                             (data im) (map (fun p => [last p 0]) (data im))).
  { unfold normalize. rewrite Hm. simpl. rewrite ?Hm. simpl. now rewrite ?Hm. }
  exists (BLEND8 a 255 r), (BLEND8 a 255 g), (BLEND8 a 255 b).
  destruct (blend_onto_white r a Hr Ha) as (R1 & R2 & R3).
  destruct (blend_onto_white g a Hg Ha) as (G1 & G2 & G3).
  destruct (blend_onto_white b a Hb Ha) as (B1 & B2 & B3).
  split.
  - rewrite E, (paste_mask_L_nth "RGBA" _ _ i white [r; g; b; a]
                  (background_nth im i Hi) Hp). reflexivity.
  - repeat split; try lia; auto.
Qed.

Lemma normalize_RGBA_composites_witness :
  exists r' g' b',
    nth_error (data (normalize colour_alpha_image)) 1 = Some [r'; g'; b']
    /\ 10 <= r' <= 255 /\ 20 <= g' <= 255 /\ 30 <= b' <= 255
    /\ (255 = 255 -> r' = 10 /\ g' = 20 /\ b' = 30)
    /\ (255 = 0 -> r' = 255 /\ g' = 255 /\ b' = 255).
Proof.
  apply (normalize_RGBA_composites colour_alpha_image 1 10 20 30 255);
    try reflexivity; unfold is_byte; simpl; lia.
Defined.

(** The full handler leaves its own results alone: when a record
    decodes to an image that is the normalised and resized form of some
    image, normalising and resizing return it as it is, and what the
    handler uploads, if anything, is the encoding of that very image. *)
Theorem thumbnail_idempotent
        (w : world) (bucket key : string) (tr : trace)
        (image_data : bytes) (src im : image) :
  0 < width src < 2 ^ 31 -> 0 < height src < 2 ^ 31 ->
  thumbnail (resample_filter w) THUMBNAIL_SIZE (normalize src) = Ok im ->
  s3_get_object w (tr ++ [Log INFO "Processing image"])%list bucket key
  = Ok image_data ->
  Image_open w image_data = Ok im ->
  let run := process_record w (record_of bucket key) tr in
  thumbnail (resample_filter w) THUMBNAIL_SIZE (normalize im) = Ok im
  /\ match save_jpeg w im THUMBNAIL_QUALITY true with
     | Raise e => snd run = Raise e /\ uploads (fst run) = uploads tr
     | Ok buf =>
         exists t,
           uploads (fst run)
           = (uploads tr
                ++ [PutObject (THUMBNAIL_BUCKET w)
                              (KeyDeriver.thumbnail_key key) buf "image/jpeg"
                              [("original-image", key);
                               ("source-bucket", bucket);
                               ("generated-by", "Lambda-ThumbnailGenerator");
                               ("generation-time", t)]])%list
     end.
Proof.
  intros HW HH Hs Hg Ho. cbv zeta.
  destruct (normalize_size src) as [Ew Eh].
  destruct (thumbnail_box (resample_filter w) (normalize src))
    as (im2 & H2 & Hw & Hh & _); [lia | lia |].
  change (200, 200) with THUMBNAIL_SIZE in H2.
  rewrite H2 in Hs. injection Hs as ->.
  assert (Hn : normalize im = im).
  { apply normalize_opaque. rewrite (thumbnail_mode _ _ _ _ H2).
    apply normalized_mode. }
  assert (Ht : thumbnail (resample_filter w) THUMBNAIL_SIZE (normalize im)
               = Ok im).
  { rewrite Hn.
    unfold thumbnail, THUMBNAIL_SIZE, preserve_aspect_ratio. cbn [fst snd].
    replace (width im <=? 200) with true by (symmetry; apply Z.leb_le; lia).
    replace (height im <=? 200) with true by (symmetry; apply Z.leb_le; lia).
    reflexivity. }
  split; [exact Ht|].
  rewrite (process_record_run w bucket key tr image_data im im Hg Ho Ht).
  cbv zeta.
  destruct (save_jpeg w im THUMBNAIL_QUALITY true) as [buf|e].
  - eexists.
    destruct (s3_put_object w _ _ _ _) as [[]|e];
      [destruct (sns_publish w _ _ _ _) as [[]|e]|];
      cbn [fst]; flat; calls; reflexivity.
  - cbn [fst snd]. calls. now split.
Qed.

Lemma thumbnail_idempotent_witness :
  let im := Image (Some "PNG") "RGB" 200 1 (repeat [10; 20; 30] 200) [] in
  let w := world_decoding im in
  let run := process_record w (record_of "thumbs" "thumbnails/cat_thumb.jpg") [] in
  thumbnail (resample_filter w) THUMBNAIL_SIZE (normalize im) = Ok im
  /\ match save_jpeg w im THUMBNAIL_QUALITY true with
     | Raise e => snd run = Raise e /\ uploads (fst run) = uploads []
     | Ok buf =>
         exists t,
           uploads (fst run)
           = (uploads []
                ++ [PutObject (THUMBNAIL_BUCKET w)
                              (KeyDeriver.thumbnail_key "thumbnails/cat_thumb.jpg")
                              buf "image/jpeg"
                              [("original-image", "thumbnails/cat_thumb.jpg");
                               ("source-bucket", "thumbs");
                               ("generated-by", "Lambda-ThumbnailGenerator");
                               ("generation-time", t)]])%list
     end.
Proof.
  apply (thumbnail_idempotent
           (world_decoding
              (Image (Some "PNG") "RGB" 200 1 (repeat [10; 20; 30] 200) []))
           "thumbs" "thumbnails/cat_thumb.jpg" [] stored_bytes wide_image);
    [vm_compute; split; reflexivity | vm_compute; split; reflexivity
     | reflexivity | reflexivity | reflexivity].
Defined.



(** The success notification of the full handler reports the format
    of the image it encoded: for a source decoded as [RGBA], [LA] or [P]
    that is the fresh white background, whose [format] is [None], so the
    notification's [Format] line loses the format of the source; for any
    other source it is the format of the file. *)
Theorem normalized_image_format
        (w : world) (bucket key : string) (tr : trace)
        (image_data : bytes) (im im' : image) (thumbnail_buffer : bytes) :
  s3_get_object w (tr ++ [Log INFO "Processing image"])%list bucket key
  = Ok image_data ->
  Image_open w image_data = Ok im ->
  thumbnail (resample_filter w) THUMBNAIL_SIZE (normalize im) = Ok im' ->
  save_jpeg w im' THUMBNAIL_QUALITY true = Ok thumbnail_buffer ->
  s3_put_object w
    (tr ++ [Log INFO "Processing image"; GetObject bucket key;
            Log INFO "Downloaded image size"; Log INFO "Original image format";
            Log INFO "Thumbnail generated";
            Log INFO "Uploading thumbnail to"])%list
    (THUMBNAIL_BUCKET w) (KeyDeriver.thumbnail_key key) thumbnail_buffer
  = Ok tt ->
  exists t,
    notifications (fst (process_record w (record_of bucket key) tr))
    = (notifications tr
         ++ [Publish (SNS_TOPIC_ARN w)
                     (ThumbnailGenerated (PosixPath.basename key))
                     (SuccessMessage key bucket (Z.of_nat (length image_data))
                        (if existsb (String.eqb (mode im)) ["RGBA"; "LA"; "P"]
                         then None else format im)
                        (KeyDeriver.thumbnail_key key) (THUMBNAIL_BUCKET w)
                        (thumbnail_size_text thumbnail_buffer)
                        THUMBNAIL_SIZE THUMBNAIL_QUALITY t)])%list.
Proof.
  intros Hg Ho Ht Hs Hp.
  assert (F : format im'
              = if existsb (String.eqb (mode im)) ["RGBA"; "LA"; "P"]
                then None else format im).
  { rewrite (thumbnail_format _ _ _ _ Ht). unfold normalize.
    destruct (existsb (String.eqb (mode im)) ["RGBA"; "LA"; "P"]);
      [|reflexivity].
    now destruct (String.eqb (mode _) "RGBA"). }
  rewrite (process_record_run w bucket key tr image_data im im' Hg Ho Ht).
  cbv zeta. rewrite Hs. flat. rewrite Hp. rewrite F. eexists.
  destruct (sns_publish w _ _ _ _) as [[]|e]; cbn [fst]; calls; reflexivity.
Qed.

Lemma normalized_image_format_witness :
  exists t,
    notifications
      (fst (process_record (world_decoding colour_alpha_image)
                           (record_of "src" "logo.png") []))
    = (notifications []
         ++ [Publish (SNS_TOPIC_ARN (world_decoding colour_alpha_image))
                     (ThumbnailGenerated (PosixPath.basename "logo.png"))
                     (SuccessMessage "logo.png" "src"
                        (Z.of_nat (length stored_bytes))
                        (if existsb (String.eqb (mode colour_alpha_image))
                                    ["RGBA"; "LA"; "P"]
                         then None else format colour_alpha_image)
                        (KeyDeriver.thumbnail_key "logo.png")
                        (THUMBNAIL_BUCKET (world_decoding colour_alpha_image))
                        (thumbnail_size_text jpeg_bytes)
                        THUMBNAIL_SIZE THUMBNAIL_QUALITY t)])%list.
Proof.
  apply (normalized_image_format (world_decoding colour_alpha_image)
           "src" "logo.png" [] stored_bytes colour_alpha_image
           (normalize colour_alpha_image) jpeg_bytes);
    reflexivity.
Defined.

End ImageExtras.
